(** * ecephys_spike_sorting.common.utils

    A shallow embedding of [ecephys_spike_sorting/common/utils.py]: the
    Kilosort output loader [load_kilosort_data], the cluster-quality table
    ([write_cluster_group_tsv], [read_cluster_group_tsv]), the probe
    metadata codec ([write_probe_json], [read_probe_json]), the range
    search [find_range] and the progress bar [printProgressBar].

    Conventions of the embedding.
    - A Python exception is a value of [exn]; a call that may raise returns a
      [result]; [try ... except OSError] is [try_except_OSError].
    - A numpy array is its shape together with its C-contiguous (row-major)
      buffer.  [templates.npy] is indexed with three subscripts by the loader
      and [whitening_mat_inv.npy] is a matrix, so they get the rank-typed
      records [tensor3] and [matrix]; the other arrays are [ndarray]s of any
      rank.
    - Array scalars are an abstract type [R] with the operations the loader
      uses ([zero], [add], [mul], [div]); no algebraic law is assumed about
      them, so every statement holds for floating point as well.  Cluster
      identifiers are integers ([Z]); where numpy stores them with the
      dtype [int64] the range is checked.
    - The files of the Kilosort directory are entries of a record: an entry
      either holds its content or makes the opening call raise.  The probe
      file lives in a file system where paths name files and opening may
      be refused.
    - The two text formats are modelled on characters.  [to_csv] and
      [np.genfromtxt] are the writer and the reader of the quality table;
      the reader is modelled for ASCII text, and the statements about it
      are about ASCII tables.  [json.dump] and [json.load] are the writer
      and the reader of the probe document, the reader being a scanner and
      a parser for the documents the writer can produce (an object whose
      members are numbers or flat arrays of numbers, under keys without
      escape sequences); the statements about it are about such documents.
      Python floats are an abstract type with the text [json.dump] writes
      for them.

    The file has two parts: the program, then its properties. *)

From Stdlib Require Import String Ascii ZArith Bool Arith Lia List.
From Stdlib Require Import Sorting.Sorted DecimalString.
From Stdlib Require Import DecimalFacts DecimalPos DecimalN DecimalZ.
Import ListNotations.

Local Open Scope string_scope.
Local Open Scope nat_scope.

(** ** Exceptions and results *)

Inductive exn : Type :=
| FileNotFoundError
| PermissionError
| IsADirectoryError
| OSError
| ValueError
| IndexError
| KeyError
| JSONDecodeError
| OverflowError.

(** [isinstance(e, OSError)]: the three file errors are subclasses of
    [OSError]; [JSONDecodeError] is a subclass of [ValueError] and
    [OverflowError] of [ArithmeticError]. *)
Definition is_OSError (e : exn) : bool :=
  match e with
  | FileNotFoundError | PermissionError | IsADirectoryError | OSError => true
  | ValueError | IndexError | KeyError | JSONDecodeError | OverflowError =>
      false
  end.

Inductive result (A : Type) : Type :=
| Ok (a : A)
| Raise (e : exn).

Arguments Ok {A} a.
Arguments Raise {A} e.

Definition bind {A B : Type} (m : result A) (k : A -> result B) : result B :=
  match m with
  | Ok a => k a
  | Raise e => Raise e
  end.

Declare Scope py_scope.
Delimit Scope py_scope with py.
Notation "x <- m ;; k" := (bind m (fun x => k))
  (at level 61, m at next level, right associativity) : py_scope.
Notation "' p <- m ;; k" := (bind m (fun x => let p := x in k))
  (at level 61, p pattern, m at next level, right associativity) : py_scope.
Local Open Scope py_scope.

(** [try: body except OSError: handler]. *)
Definition try_except_OSError {A : Type} (body : result A) (handler : result A)
  : result A :=
  match body with
  | Ok a => Ok a
  | Raise e => if is_OSError e then handler else Raise e
  end.

Fixpoint mapM {A B : Type} (f : A -> result B) (l : list A) : result (list B) :=
  match l with
  | [] => Ok []
  | x :: xs => y <- f x ;; ys <- mapM f xs ;; Ok (y :: ys)
  end.

(** ** Files *)

(** What a path holds: content, or the exception raised when it is opened
    ([FileNotFoundError] when nothing is there). *)
Inductive entry (A : Type) : Type :=
| Holds (content : A)
| Fails (e : exn).

Arguments Holds {A} content.
Arguments Fails {A} e.

Definition absent {A : Type} : entry A := Fails FileNotFoundError.

(** ** numpy arrays *)

Record ndarray (A : Type) : Type := mk_ndarray {
  shape : list nat;
  data : list A
}.

Arguments mk_ndarray {A} shape data.
Arguments shape {A} n.
Arguments data {A} n.

Definition size {A : Type} (a : ndarray A) : nat := length (data a).

(** A one-dimensional array made of a Python list. *)
Definition array1 {A : Type} (l : list A) : ndarray A :=
  mk_ndarray [length l] l.

(** [np.squeeze(a)]: every axis of length one is removed; the buffer is
    untouched. *)
Definition np_squeeze {A : Type} (a : ndarray A) : ndarray A :=
  mk_ndarray (filter (fun d => negb (d =? 1)) (shape a)) (data a).

(** Elementwise application, as in [spike_times / sample_rate]. *)
Definition ndmap {A B : Type} (f : A -> B) (a : ndarray A) : ndarray B :=
  mk_ndarray (shape a) (map f (data a)).

(** Start of the Python slice [p:] on an axis of length [len]: a negative
    [p] counts from the end, and both ends are clamped to the axis. *)
Definition slice_start (p : Z) (len : nat) : nat :=
  if (p <? 0)%Z then Z.to_nat (Z.max 0 (Z.of_nat len + p))
  else Z.to_nat (Z.min p (Z.of_nat len)).

(** Row-major buffers built from an index function. *)
Definition tabulate2 {A : Type} (r c : nat) (f : nat -> nat -> A) : list A :=
  flat_map (fun i => map (f i) (seq 0 c)) (seq 0 r).

Definition tabulate3 {A : Type} (n t c : nat) (f : nat -> nat -> nat -> A)
  : list A :=
  flat_map (fun i => tabulate2 t c (f i)) (seq 0 n).

Section Arrays.

Variable R : Type.
Variables (zero : R) (add mul : R -> R -> R).

Record matrix : Type := mk_matrix {
  rows : nat;
  cols : nat;
  buf2 : list R
}.

Record tensor3 : Type := mk_tensor3 {
  dim0 : nat;
  dim1 : nat;
  dim2 : nat;
  buf3 : list R
}.

Definition get2 (m : matrix) (i j : nat) : R :=
  nth (i * cols m + j) (buf2 m) zero.

Definition get3 (a : tensor3) (i j k : nat) : R :=
  nth ((i * dim1 a + j) * dim2 a + k) (buf3 a) zero.

Definition mk2 (r c : nat) (f : nat -> nat -> R) : matrix :=
  mk_matrix r c (tabulate2 r c f).

Definition mk3 (n t c : nat) (f : nat -> nat -> nat -> R) : tensor3 :=
  mk_tensor3 n t c (tabulate3 n t c f).

Definition shape3 (a : tensor3) : nat * nat * nat := (dim0 a, dim1 a, dim2 a).

(** [templates[:, p:, :]]. *)
Definition strip_padding (templates : tensor3) (p : Z) : tensor3 :=
  let s := slice_start p (dim1 templates) in
  mk3 (dim0 templates) (dim1 templates - s) (dim2 templates)
      (fun i j k => get3 templates i (s + j) k).

(** [np.zeros(shape)]. *)
Definition np_zeros (sh : nat * nat * nat) : tensor3 :=
  let '(n, t, c) := sh in mk3 n t c (fun _ _ _ => zero).

(** [a[i, :, :]] read as a matrix. *)
Definition slice2 (a : tensor3) (i : nat) : matrix :=
  mk2 (dim1 a) (dim2 a) (fun j k => get3 a i j k).

(** Entry [(i, j)] of a matrix product: the sum over [k] of
    [a[i,k] * b[k,j]]. *)
Definition dot_entry (a b : matrix) (i j : nat) : R :=
  fold_left (fun acc k => add acc (mul (get2 a i k) (get2 b k j)))
            (seq 0 (cols a)) zero.

Definition matmul (a b : matrix) : matrix :=
  mk2 (rows a) (cols b) (dot_entry a b).

(** [np.dot(a, b)] on two matrices: the inner dimensions must agree. *)
Definition np_dot (a b : matrix) : result matrix :=
  if cols a =? rows b then Ok (matmul a b) else Raise ValueError.

(** Can a value of shape [(r, m)] be broadcast to shape [(t, c)]? *)
Definition broadcastable (r m t c : nat) : bool :=
  ((r =? t) || (r =? 1)) && ((m =? c) || (m =? 1)).

(** [u[i, :, :] = x]: the value is broadcast to the slice's shape, an axis
    of length one being repeated. *)
Definition setitem_slice (u : tensor3) (i : nat) (x : matrix)
  : result tensor3 :=
  if negb (i <? dim0 u) then Raise IndexError
  else if broadcastable (rows x) (cols x) (dim1 u) (dim2 u) then
    Ok (mk3 (dim0 u) (dim1 u) (dim2 u)
            (fun i' j k =>
               if i' =? i
               then get2 x (if rows x =? 1 then 0 else j)
                           (if cols x =? 1 then 0 else k)
               else get3 u i' j k))
  else Raise ValueError.

(** The loop [for temp_idx in range(templates.shape[0])] with the
    accumulator [unwhitened_temps]. *)
Fixpoint unwhiten_loop (idxs : list nat) (templates : tensor3)
         (unwhitening_mat : matrix) (unwhitened_temps : tensor3)
  : result tensor3 :=
  match idxs with
  | [] => Ok unwhitened_temps
  | temp_idx :: rest =>
      x <- np_dot (slice2 templates temp_idx) unwhitening_mat ;;
      u <- setitem_slice unwhitened_temps temp_idx x ;;
      unwhiten_loop rest templates unwhitening_mat u
  end.

Definition unwhiten (templates : tensor3) (unwhitening_mat : matrix)
  : result tensor3 :=
  unwhiten_loop (seq 0 (dim0 templates)) templates unwhitening_mat
                (np_zeros (shape3 templates)).

End Arrays.

(** ** [np.unique] on integer arrays *)

Fixpoint insert_sorted (x : Z) (l : list Z) : list Z :=
  match l with
  | [] => [x]
  | y :: ys => if (x <=? y)%Z then x :: l else y :: insert_sorted x ys
  end.

Definition sort (l : list Z) : list Z := fold_right insert_sorted [] l.

(** Keeps the elements of a sorted list that differ from their
    predecessor ([aux[1:] != aux[:-1]] in numpy). *)
Fixpoint keep_changes (prev : Z) (l : list Z) : list Z :=
  match l with
  | [] => []
  | x :: xs =>
      if (x =? prev)%Z then keep_changes prev xs else x :: keep_changes x xs
  end.

(** [np.unique(a)]: the array is flattened and sorted, and one element of
    every run of equal values is kept; the result is one-dimensional. *)
Definition np_unique (a : ndarray Z) : ndarray Z :=
  array1 (match sort (data a) with
          | [] => []
          | x :: xs => x :: keep_changes x xs
          end).

(** ** Text *)

Definition LF : ascii := ascii_of_nat 10.
Definition CR : ascii := ascii_of_nat 13.
Definition TAB : ascii := ascii_of_nat 9.

Definition is_empty (s : string) : bool :=
  match s with
  | EmptyString => true
  | String _ _ => false
  end.

(** [str.isspace] on ASCII characters. *)
Definition is_space (c : ascii) : bool :=
  let n := nat_of_ascii c in
  ((9 <=? n) && (n <=? 13)) || ((28 <=? n) && (n <=? 32)).

(** Text files are opened with universal newlines: ["\r\n"] and ["\r"]
    read as ["\n"]. *)
Fixpoint universal_newlines (s : string) : string :=
  match s with
  | EmptyString => EmptyString
  | String c rest =>
      if Ascii.eqb c CR then
        String LF (match rest with
                   | String c' rest' =>
                       if Ascii.eqb c' LF then universal_newlines rest'
                       else universal_newlines rest
                   | EmptyString => EmptyString
                   end)
      else String c (universal_newlines rest)
  end.

(** The pieces of [s] between the characters that satisfy [sep]. *)
Fixpoint split_at (sep : ascii -> bool) (s : string) : list string :=
  match s with
  | EmptyString => [EmptyString]
  | String c rest =>
      if sep c then EmptyString :: split_at sep rest
      else match split_at sep rest with
           | piece :: pieces => String c piece :: pieces
           | [] => [String c EmptyString]
           end
  end.

Definition lines (s : string) : list string :=
  split_at (Ascii.eqb LF) (universal_newlines s).

(** [line.split()], on ASCII text. *)
Definition words (s : string) : list string :=
  filter (fun w => negb (is_empty w)) (split_at is_space s).

(** [line.split('#')[0]]. *)
Definition strip_comment (s : string) : string :=
  hd EmptyString (split_at (Ascii.eqb "#") s).

(** Does every character of [s] satisfy [p]? *)
Fixpoint string_forall (p : ascii -> bool) (s : string) : bool :=
  match s with
  | EmptyString => true
  | String c rest => p c && string_forall p rest
  end.

(** The text model reads ASCII: a byte below 128 is the character it
    encodes, whatever the encoding the file is decoded with. *)
Definition is_ascii (c : ascii) : bool := nat_of_ascii c <? 128.

(** A character of a word: an ASCII character that is neither white space
    nor the comment sign. *)
Definition word_char (c : ascii) : bool :=
  is_ascii c && negb (is_space c) && negb (Ascii.eqb "#" c).

Definition is_word (s : string) : bool :=
  negb (is_empty s) && string_forall word_char s.

(** A character of the blank between two cells: white space that does
    not end the line. *)
Definition blank_char (c : ascii) : bool :=
  is_space c && negb (Ascii.eqb LF c) && negb (Ascii.eqb c CR).

Definition is_blank (s : string) : bool :=
  negb (is_empty s) && string_forall blank_char s.

(** A line of two cells, with the blank between them. *)
Record table_row : Type := mk_table_row {
  cell0 : string;
  blank : string;
  cell1 : string
}.

Definition row_text (r : table_row) : string :=
  cell0 r ++ blank r ++ cell1 r ++ String LF EmptyString.

Definition well_formed_row (r : table_row) : bool :=
  is_word (cell0 r) && is_blank (blank r) && is_word (cell1 r).

(** The row with a tabulation between its cells. *)
Definition tab_row (ab : string * string) : table_row :=
  mk_table_row (fst ab) (String TAB EmptyString) (snd ab).

Definition digit_of (c : ascii) : option Z :=
  let n := nat_of_ascii c in
  if (48 <=? n) && (n <=? 57) then Some (Z.of_nat (n - 48)) else None.

Definition is_digit (c : ascii) : bool :=
  match digit_of c with
  | Some _ => true
  | None => false
  end.

Fixpoint digits_value (acc : Z) (s : string) : option Z :=
  match s with
  | EmptyString => Some acc
  | String c rest =>
      match digit_of c with
      | Some d => digits_value (acc * 10 + d) rest
      | None => None
      end
  end.

(** The digits of a decimal literal: at least one digit, and single
    underscores between digits, which group them and are dropped
    ([int('1_000') == 1000]); [after_digit] tells whether the previous
    character was a digit. *)
Fixpoint ungroup (after_digit : bool) (s : string) : option string :=
  match s with
  | EmptyString => if after_digit then Some EmptyString else None
  | String c rest =>
      if Ascii.eqb c "_" then
        if after_digit then ungroup false rest else None
      else if is_digit c then option_map (String c) (ungroup true rest)
      else None
  end.

Definition unsigned_of_str (s : string) : option Z :=
  match ungroup false s with
  | Some digits => digits_value 0 digits
  | None => None
  end.

(** [int(s)] on an ASCII word: an optional sign, then decimal digits with
    optional grouping underscores. *)
Definition int_of_str (s : string) : option Z :=
  match s with
  | EmptyString => None
  | String c rest =>
      if Ascii.eqb c "-" then option_map Z.opp (unsigned_of_str rest)
      else if Ascii.eqb c "+" then unsigned_of_str rest
      else unsigned_of_str s
  end.

(** The range of the dtype [int64], which is what ['int'] names. *)
Definition in_int64 (z : Z) : bool :=
  ((- 2 ^ 63 <=? z) && (z <? 2 ^ 63))%Z.

(** [str(z)]. *)
Definition str_of_int (z : Z) : string :=
  NilZero.string_of_int (Z.to_int z).

(** ** Cluster quality table *)

(** The rows of a text table: comments are cut, every line is split on
    white space, and the lines without any word are skipped. *)
Definition table_rows (text : string) : list (list string) :=
  filter (fun r => negb (length r =? 0))
         (map (fun l => words (strip_comment l)) (lines text)).

(** [np.genfromtxt(filename, dtype='str')] on a file of ASCII text:
    comments are cut, every line is split on white space, empty lines are
    skipped, every row must have as many columns as the first one, and the
    table is squeezed. *)
Definition genfromtxt (f : entry string) : result (ndarray string) :=
  match f with
  | Fails e => Raise e
  | Holds text =>
      match table_rows text with
      | [] => Ok (mk_ndarray [0] [])
      | first :: _ =>
          let nbcols := length first in
          let rows := table_rows text in
          if forallb (fun r => length r =? nbcols) rows
          then Ok (np_squeeze (mk_ndarray [length rows; nbcols] (concat rows)))
          else Raise ValueError
      end
  end.

(** [info[1:, k]] on the table [genfromtxt] returns (of rank two at most):
    too many indices for an array of lower rank. *)
Definition rows_from_1_column (info : ndarray string) (k : nat)
  : result (list string) :=
  match shape info with
  | [r; c] =>
      if k <? c
      then Ok (map (fun i => nth (i * c + k) (data info) EmptyString)
                   (seq 1 (r - 1)))
      else Raise IndexError
  | _ => Raise IndexError
  end.

(** One element of [.astype('int')] on strings: the word is read as
    [int] reads it, and the integer has to fit the dtype. *)
Definition int64_of_str (s : string) : result Z :=
  match int_of_str s with
  | Some z => if in_int64 z then Ok z else Raise OverflowError
  | None => Raise ValueError
  end.

(** [.astype('int')] on strings, element after element. *)
Definition astype_int (l : list string) : result (list Z) :=
  mapM int64_of_str l.

Definition read_cluster_group_tsv (filename : entry string)
  : result (list Z * list string) :=
  info <- genfromtxt filename ;;
  column0 <- rows_from_1_column info 0 ;;
  cluster_ids <- astype_int column0 ;;
  cluster_quality <- rows_from_1_column info 1 ;;
  Ok (cluster_ids, cluster_quality).

Definition quality_label (q : Z) : string :=
  if (q =? 0)%Z then "unsorted"
  else if (q =? 1)%Z then "good"
  else "noise".

(** The loop [for idx, ID in enumerate(IDs)]; [quality[idx]] raises when
    [quality] is shorter than [IDs]. *)
Fixpoint label_loop (idx : nat) (IDs quality : list Z)
         (cluster_index : list Z) (cluster_quality : list string)
  : result (list Z * list string) :=
  match IDs with
  | [] => Ok (cluster_index, cluster_quality)
  | ID :: rest =>
      match nth_error quality idx with
      | Some q =>
          label_loop (S idx) rest quality
                     (cluster_index ++ [ID])
                     (cluster_quality ++ [quality_label q])
      | None => Raise IndexError
      end
  end.

(** One line of the file: two cells, a tabulation between them. *)
Definition csv_line (a b : string) : string :=
  a ++ String TAB b ++ String LF EmptyString.

(** [df.to_csv(path, sep='\t', index=False)] for the two columns
    [cluster_id] and [group]. *)
Definition to_csv (cluster_id : list Z) (group : list string) : string :=
  String.concat EmptyString
    (csv_line "cluster_id" "group"
     :: map (fun row => csv_line (str_of_int (fst row)) (snd row))
            (combine cluster_id group)).

(** Returns the content written to [cluster_group.tsv] in the output
    directory. *)
Definition write_cluster_group_tsv (IDs quality : list Z) : result string :=
  ' (cluster_index, cluster_quality) <- label_loop 0 IDs quality [] [] ;;
  Ok (to_csv cluster_index cluster_quality).

(** ** The Kilosort output loader *)

Section Loader.

Variable R : Type.
Variables (zero : R) (add mul div : R -> R -> R).

(** The files [load_kilosort_data] looks for in [folder], each under its
    conventional name. *)
Record folder : Type := mk_folder {
  spike_times_npy : entry (ndarray R);
  spike_times_master_clock_npy : entry (ndarray R);
  spike_clusters_npy : entry (ndarray Z);
  amplitudes_npy : entry (ndarray R);
  templates_npy : entry (tensor3 R);
  whitening_mat_inv_npy : entry (matrix R);
  channel_map_npy : entry (ndarray R);
  pc_features_npy : entry (ndarray R);
  pc_feature_ind_npy : entry (ndarray R);
  cluster_group_tsv : entry string
}.

(** The tuple [load_kilosort_data] returns; [pcs] is the pair
    [(pc_features, pc_feature_ind)] appended when [include_pcs] is set.
    [cluster_ids] and [cluster_quality] are one-dimensional. *)
Record kilosort_data : Type := mk_kilosort_data {
  spike_times : ndarray R;
  spike_clusters : ndarray Z;
  amplitudes : ndarray R;
  unwhitened_temps : tensor3 R;
  channel_map : ndarray R;
  cluster_ids : list Z;
  cluster_quality : list string;
  pcs : option (ndarray R * ndarray R)
}.

(** [load(folder, filename)], that is
    [np.load(os.path.join(folder, filename))]. *)
Definition load {A : Type} (file : entry A) : result A :=
  match file with
  | Holds a => Ok a
  | Fails e => Raise e
  end.

(** The spike-time file the flag selects. *)
Definition selected_spike_times (fd : folder) (use_master_clock : bool)
  : entry (ndarray R) :=
  if use_master_clock then spike_times_master_clock_npy fd
  else spike_times_npy fd.

(** The optional principal-component arrays. *)
Definition loaded_pcs (fd : folder) (include_pcs : bool)
  : result (option (ndarray R * ndarray R)) :=
  if include_pcs then
    pc_features <- load (pc_features_npy fd) ;;
    pc_feature_ind <- load (pc_feature_ind_npy fd) ;;
    Ok (Some (pc_features, pc_feature_ind))
  else Ok None.

(** Lines 210 to 214: the quality table, or the record synthesized from
    the cluster assignments when reading it raises an [OSError]. *)
Definition resolve_cluster_quality (file : entry string)
           (spike_clusters : ndarray Z) : result (list Z * list string) :=
  try_except_OSError
    (read_cluster_group_tsv file)
    (let cluster_ids := np_unique spike_clusters in
     Ok (data cluster_ids, repeat "unsorted" (size cluster_ids))).

Definition load_kilosort_data (folder : folder) (sample_rate : R)
           (convert_to_seconds use_master_clock include_pcs : bool)
           (template_zero_padding : Z) : result kilosort_data :=
  spike_times <-
    (if use_master_clock then load (spike_times_master_clock_npy folder)
     else load (spike_times_npy folder)) ;;
  spike_clusters <- load (spike_clusters_npy folder) ;;
  amplitudes <- load (amplitudes_npy folder) ;;
  templates <- load (templates_npy folder) ;;
  unwhitening_mat <- load (whitening_mat_inv_npy folder) ;;
  channel_map <- load (channel_map_npy folder) ;;
  pcs <-
    (if include_pcs then
       pc_features <- load (pc_features_npy folder) ;;
       pc_feature_ind <- load (pc_feature_ind_npy folder) ;;
       Ok (Some (pc_features, pc_feature_ind))
     else Ok None) ;;
  let templates := strip_padding R zero templates template_zero_padding in
  let spike_clusters := np_squeeze spike_clusters in
  let spike_times := np_squeeze spike_times in
  let spike_times :=
    if convert_to_seconds
    then ndmap (fun x => div x sample_rate) spike_times
    else spike_times in
  unwhitened_temps <- unwhiten R zero add mul templates unwhitening_mat ;;
  ' (cluster_ids, cluster_quality) <-
    resolve_cluster_quality (cluster_group_tsv folder) spike_clusters ;;
  Ok (mk_kilosort_data spike_times spike_clusters amplitudes
                       unwhitened_temps channel_map cluster_ids
                       cluster_quality pcs).

End Loader.

Arguments mk_folder {R}.
Arguments spike_times_npy {R}.
Arguments spike_times_master_clock_npy {R}.
Arguments spike_clusters_npy {R}.
Arguments amplitudes_npy {R}.
Arguments templates_npy {R}.
Arguments whitening_mat_inv_npy {R}.
Arguments channel_map_npy {R}.
Arguments pc_features_npy {R}.
Arguments pc_feature_ind_npy {R}.
Arguments cluster_group_tsv {R}.
Arguments mk_kilosort_data {R}.
Arguments spike_times {R}.
Arguments spike_clusters {R}.
Arguments amplitudes {R}.
Arguments unwhitened_temps {R}.
Arguments channel_map {R}.
Arguments cluster_ids {R}.
Arguments cluster_quality {R}.
Arguments pcs {R}.
Arguments load {A}.
Arguments selected_spike_times {R}.
Arguments loaded_pcs {R}.
Arguments resolve_cluster_quality file spike_clusters : assert.

(** ** Probe metadata: the JSON document *)

Definition QUOTE : ascii := ascii_of_nat 34.

(** A file system.  A path names a file ([realpath]: two spellings of a
    path, or a link and its target, name one file); a file may hold text;
    opening a file for reading, or for writing, may be refused with an
    exception. *)
Record filesystem : Type := mk_filesystem {
  realpath : string -> string;
  content : string -> option string;
  read_error : string -> option exn;
  write_error : string -> option exn
}.

(** [open(path)] followed by a read of the whole file. *)
Definition read_file (fs : filesystem) (path : string) : result string :=
  let file := realpath fs path in
  match read_error fs file with
  | Some e => Raise e
  | None =>
      match content fs file with
      | Some text => Ok text
      | None => Raise FileNotFoundError
      end
  end.

(** [open(path, 'w')] followed by a write of [text]: the file is created
    or replaced, unless opening it is refused. *)
Definition write_file (fs : filesystem) (path text : string)
  : result filesystem :=
  let file := realpath fs path in
  match write_error fs file with
  | Some e => Raise e
  | None =>
      Ok (mk_filesystem
            (realpath fs)
            (fun f => if String.eqb f file then Some text else content fs f)
            (read_error fs) (write_error fs))
  end.

Inductive token : Type :=
| TLBrace
| TRBrace
| TLBracket
| TRBracket
| TComma
| TColon
| TString (s : string)
| TLiteral (s : string).

Inductive lex_mode : Type :=
| LIdle
| LString (acc : string)
| LLiteral (acc : string).

(** JSON white space. *)
Definition is_json_ws (c : ascii) : bool :=
  let n := nat_of_ascii c in
  (n =? 32) || (n =? 9) || (n =? 10) || (n =? 13).

(** The characters of numbers and of the literals [NaN], [Infinity],
    [true], [false], [null]. *)
Definition is_literal_char (c : ascii) : bool :=
  let n := nat_of_ascii c in
  ((48 <=? n) && (n <=? 57)) || (n =? 43) || (n =? 45) || (n =? 46)
  || ((65 <=? n) && (n <=? 90)) || ((97 <=? n) && (n <=? 122)).

Definition lex_idle (toks : list token) (c : ascii)
  : option (list token * lex_mode) :=
  if is_json_ws c then Some (toks, LIdle)
  else if Ascii.eqb c "{" then Some ((toks ++ [TLBrace])%list, LIdle)
  else if Ascii.eqb c "}" then Some ((toks ++ [TRBrace])%list, LIdle)
  else if Ascii.eqb c "[" then Some ((toks ++ [TLBracket])%list, LIdle)
  else if Ascii.eqb c "]" then Some ((toks ++ [TRBracket])%list, LIdle)
  else if Ascii.eqb c "," then Some ((toks ++ [TComma])%list, LIdle)
  else if Ascii.eqb c ":" then Some ((toks ++ [TColon])%list, LIdle)
  else if Ascii.eqb c QUOTE then Some (toks, LString EmptyString)
  else if is_literal_char c then Some (toks, LLiteral (String c EmptyString))
  else None.

(** One character of the scanner.  Inside a string a control character is
    refused, as [json.load] does.  Escape sequences in strings are outside
    the fragment, the backslash being refused: the keys [write_probe_json]
    writes have none. *)
Definition lex_step (st : option (list token * lex_mode)) (c : ascii)
  : option (list token * lex_mode) :=
  match st with
  | None => None
  | Some (toks, LIdle) => lex_idle toks c
  | Some (toks, LString acc) =>
      if Ascii.eqb c QUOTE then Some ((toks ++ [TString acc])%list, LIdle)
      else if Ascii.eqb c "\" then None
      else if nat_of_ascii c <? 32 then None
      else Some (toks, LString (acc ++ String c EmptyString))
  | Some (toks, LLiteral acc) =>
      if is_literal_char c
      then Some (toks, LLiteral (acc ++ String c EmptyString))
      else lex_idle (toks ++ [TLiteral acc])%list c
  end.

(** The scanner run over a piece of text from a given state. *)
Definition lex_run (st : option (list token * lex_mode)) (text : string)
  : option (list token * lex_mode) :=
  fold_left lex_step (list_ascii_of_string text) st.

Definition lex (text : string) : option (list token) :=
  match lex_run (Some ([], LIdle)) text with
  | Some (toks, LIdle) => Some toks
  | Some (toks, LLiteral acc) => Some (toks ++ [TLiteral acc])%list
  | Some (_, LString _) => None
  | None => None
  end.

(** A JSON integer: an optional minus sign, then either the digit zero
    alone or a non-zero digit followed by digits. *)
Definition int_of_json (s : string) : option Z :=
  let unsigned (d : string) :=
    match d with
    | EmptyString => None
    | String c rest =>
        if Ascii.eqb c "0" && negb (is_empty rest) then None
        else digits_value 0 d
    end in
  match s with
  | EmptyString => None
  | String c rest =>
      if Ascii.eqb c "-" then option_map Z.opp (unsigned rest) else unsigned s
  end.

(** The dtypes [np.array] gives to Python numbers. *)
Inductive dtype : Type :=
| Int64
| UInt64
| Float64
| Object.

Definition in_uint64 (z : Z) : bool := ((0 <=? z) && (z <? 2 ^ 64))%Z.

(** The dtype two dtypes are promoted to: [int64] and [uint64] have no
    common integer dtype and give [float64]; anything with [object] is
    [object]. *)
Definition promote (a b : dtype) : dtype :=
  match a, b with
  | Object, _ | _, Object => Object
  | Float64, _ | _, Float64 => Float64
  | Int64, Int64 => Int64
  | UInt64, UInt64 => UInt64
  | Int64, UInt64 | UInt64, Int64 => Float64
  end.

Fixpoint spaces (n : nat) : string :=
  match n with
  | O => EmptyString
  | S n' => String " " (spaces n')
  end.

(** A line break followed by the indentation of [level] ([indent=4]). *)
Definition newline_indent (level : nat) : string :=
  String LF (spaces (4 * level)).

Section Probe.

(** Python floats, with [float.__repr__] as [json.dump] writes it and
    [float(literal)] as [json.load] reads it. *)
Variable F : Type.
Variable float_repr : F -> string.
Variable float_of_literal : string -> option F.

(** [float(z)], the conversion of an integer that fits 64 bits. *)
Variable float_of_int : Z -> F.

Inductive pynum : Type :=
| PyInt (z : Z)
| PyFloat (f : F).

(** The values of the document: a number, or the list a one-dimensional
    array gives with [tolist()]. *)
Inductive jvalue : Type :=
| JNumber (n : pynum)
| JArray (items : list pynum).

(** A Python [dict] with string keys, in insertion order. *)
Definition document : Type := list (string * jvalue).

(** [data[key]]: the last binding of [key]. *)
Definition dict_get (data : document) (key : string) : result jvalue :=
  fold_left (fun found kv =>
               if String.eqb (fst kv) key then Ok (snd kv) else found)
            data (Raise KeyError).

Definition encode_num (n : pynum) : string :=
  match n with
  | PyInt z => str_of_int z
  | PyFloat f => float_repr f
  end.

Definition encode_value (level : nat) (v : jvalue) : string :=
  match v with
  | JNumber n => encode_num n
  | JArray [] => "[]"
  | JArray (x :: xs) =>
      "[" ++ newline_indent (S level) ++ encode_num x
      ++ String.concat EmptyString
           (map (fun y => "," ++ newline_indent (S level) ++ encode_num y) xs)
      ++ newline_indent level ++ "]"
  end.

Definition encode_member (level : nat) (kv : string * jvalue) : string :=
  String QUOTE (fst kv) ++ String QUOTE (": " ++ encode_value level (snd kv)).

(** [json.dump(doc, outfile, indent = 4, separators = (',', ': '))]. *)
Definition json_dump (doc : document) : string :=
  match doc with
  | [] => "{}"
  | m :: ms =>
      "{" ++ newline_indent 1 ++ encode_member 1 m
      ++ String.concat EmptyString
           (map (fun m' => "," ++ newline_indent 1 ++ encode_member 1 m') ms)
      ++ newline_indent 0 ++ "}"
  end.

(** A number literal without fraction or exponent is an [int], any other
    is handed to [float]. *)
Definition decode_number (lit : string) : option pynum :=
  match int_of_json lit with
  | Some z => Some (PyInt z)
  | None => option_map PyFloat (float_of_literal lit)
  end.

Inductive pstate : Type :=
| PStart
| PKeyOrClose
| PKey (doc : document)
| PColon (doc : document) (key : string)
| PValue (doc : document) (key : string)
| PItemOrClose (doc : document) (key : string)
| PItem (doc : document) (key : string) (items : list pynum)
| PCommaOrCloseArray (doc : document) (key : string) (items : list pynum)
| PCommaOrCloseObject (doc : document)
| PDone (doc : document)
| PError.

(** One token of the parser of objects whose members are numbers or flat
    arrays of numbers. *)
Definition parse_step (st : pstate) (tok : token) : pstate :=
  match st, tok with
  | PStart, TLBrace => PKeyOrClose
  | PKeyOrClose, TRBrace => PDone []
  | PKeyOrClose, TString k => PColon [] k
  | PKey doc, TString k => PColon doc k
  | PColon doc k, TColon => PValue doc k
  | PValue doc k, TLiteral lit =>
      match decode_number lit with
      | Some n => PCommaOrCloseObject (doc ++ [(k, JNumber n)])%list
      | None => PError
      end
  | PValue doc k, TLBracket => PItemOrClose doc k
  | PItemOrClose doc k, TRBracket =>
      PCommaOrCloseObject (doc ++ [(k, JArray [])])%list
  | PItemOrClose doc k, TLiteral lit =>
      match decode_number lit with
      | Some n => PCommaOrCloseArray doc k [n]
      | None => PError
      end
  | PItem doc k items, TLiteral lit =>
      match decode_number lit with
      | Some n => PCommaOrCloseArray doc k (items ++ [n])%list
      | None => PError
      end
  | PCommaOrCloseArray doc k items, TComma => PItem doc k items
  | PCommaOrCloseArray doc k items, TRBracket =>
      PCommaOrCloseObject (doc ++ [(k, JArray items)])%list
  | PCommaOrCloseObject doc, TComma => PKey doc
  | PCommaOrCloseObject doc, TRBrace => PDone doc
  | _, _ => PError
  end.

(** [json.load(data_file)] on the text of the file. *)
Definition json_load (text : string) : result document :=
  match lex text with
  | Some toks =>
      match fold_left parse_step toks PStart with
      | PDone doc => Ok doc
      | _ => Raise JSONDecodeError
      end
  | None => Raise JSONDecodeError
  end.

(** A numpy array of numbers: its dtype, its shape, and its elements in
    row-major order as the Python numbers [tolist()] gives. *)
Record nparray : Type := mk_nparray {
  np_dtype : dtype;
  np_shape : list nat;
  np_items : list pynum
}.

(** The dtype of a Python number: a float is [float64]; an integer is
    [int64] if it fits, [uint64] if it fits that, and otherwise stays a
    Python object. *)
Definition scalar_dtype (n : pynum) : dtype :=
  match n with
  | PyFloat _ => Float64
  | PyInt z =>
      if in_int64 z then Int64 else if in_uint64 z then UInt64 else Object
  end.

(** The dtype of a list of numbers: the promotion of the dtypes of its
    elements, [float64] for the empty list. *)
Definition result_dtype (items : list pynum) : dtype :=
  match items with
  | [] => Float64
  | x :: xs =>
      fold_left (fun d y => promote d (scalar_dtype y)) xs (scalar_dtype x)
  end.

(** An element stored with a dtype: an integer becomes a float in a
    [float64] array. *)
Definition cast (d : dtype) (n : pynum) : pynum :=
  match d, n with
  | Float64, PyInt z => PyFloat (float_of_int z)
  | _, _ => n
  end.

(** [np.array(v)]: a list gives a one-dimensional array whose elements
    share one dtype, a number an array without axes. *)
Definition np_array (v : jvalue) : nparray :=
  match v with
  | JArray items =>
      let d := result_dtype items in
      mk_nparray d [length items] (map (cast d) items)
  | JNumber n => mk_nparray (scalar_dtype n) [] [n]
  end.

(** The arrays handed to the writer: one-dimensional (the docstring's
    [(384 x 0)]), of an integer dtype or of a floating dtype.  The writer
    applies [tolist()] to them and nothing else, which gives Python
    integers, or Python floats, whatever the width of the dtype; so a
    vector is given by these numbers.  Arrays of booleans are left out. *)
Inductive vector : Type :=
| IntVector (l : list Z)
| FloatVector (l : list F).

(** Do the integers of the vector fit [int64]?  Those of every integer
    dtype but [uint64] do. *)
Definition fits_int64 (a : vector) : bool :=
  match a with
  | IntVector l => forallb in_int64 l
  | FloatVector _ => true
  end.

(** [a.tolist()]. *)
Definition tolist (a : vector) : list pynum :=
  match a with
  | IntVector l => map PyInt l
  | FloatVector l => map PyFloat l
  end.

(** The vector as an array of the widest dtype of its kind. *)
Definition widest (a : vector) : nparray :=
  match a with
  | IntVector l => mk_nparray Int64 [length l] (map PyInt l)
  | FloatVector l => mk_nparray Float64 [length l] (map PyFloat l)
  end.

(** The array [a] has the values of the vector [v]: its length, its
    elements and, unless it is empty, the widest dtype of its kind. *)
Definition same_values (a : nparray) (v : vector) : Prop :=
  np_shape a = [length (tolist v)]
  /\ np_items a = tolist v
  /\ (tolist v <> [] -> np_dtype a = np_dtype (widest v)).

(** [surface_channel] and [air_channel] are Python integers. *)
Definition write_probe_json (fs : filesystem) (output_file : string)
           (channels offset scaling mask : vector)
           (surface_channel air_channel : Z)
           (vertical_pos horizontal_pos : vector) : result filesystem :=
  write_file fs output_file
    (json_dump
       [ ("channel", JArray (tolist channels));
         ("offset", JArray (tolist offset));
         ("scaling", JArray (tolist scaling));
         ("mask", JArray (tolist mask));
         ("surface_channel", JNumber (PyInt surface_channel));
         ("air_channel", JNumber (PyInt air_channel));
         ("vertical_pos", JArray (tolist vertical_pos));
         ("horizontal_pos", JArray (tolist horizontal_pos)) ]).

(** The tuple [(mask, offset, scaling, surface_channel, air_channel)]. *)
Definition read_probe_json (fs : filesystem) (input_file : string)
  : result (nparray * nparray * nparray * jvalue * jvalue) :=
  text <- read_file fs input_file ;;
  data <- json_load text ;;
  scaling <- dict_get data "scaling" ;;
  mask <- dict_get data "mask" ;;
  offset <- dict_get data "offset" ;;
  surface_channel <- dict_get data "surface_channel" ;;
  air_channel <- dict_get data "air_channel" ;;
  Ok (np_array mask, np_array offset, np_array scaling,
      surface_channel, air_channel).

(** The tokens of the text [json_dump] writes. *)
Definition tokens_of_items (xs : list pynum) : list token :=
  flat_map (fun y => [TComma; TLiteral (encode_num y)]) xs.

Definition tokens_of_value (v : jvalue) : list token :=
  match v with
  | JNumber n => [TLiteral (encode_num n)]
  | JArray [] => [TLBracket; TRBracket]
  | JArray (x :: xs) =>
      TLBracket :: TLiteral (encode_num x) :: tokens_of_items xs
      ++ [TRBracket]
  end.

Definition tokens_of_member (kv : string * jvalue) : list token :=
  TString (fst kv) :: TColon :: tokens_of_value (snd kv).

Definition tokens_of_members (ms : list (string * jvalue)) : list token :=
  flat_map (fun m => TComma :: tokens_of_member m) ms.

Definition tokens_of_document (doc : document) : list token :=
  match doc with
  | [] => [TLBrace; TRBrace]
  | m :: ms =>
      TLBrace :: tokens_of_member m ++ tokens_of_members ms ++ [TRBrace]
  end.

(** A key that [json.dump] writes between quotes as it is: its
    characters are printable ASCII other than the quote and the backslash
    (any other character is written as an escape sequence). *)
Definition plain_key (k : string) : bool :=
  string_forall (fun c => (32 <=? nat_of_ascii c) && (nat_of_ascii c <=? 126)
                          && negb (Ascii.eqb c QUOTE)
                          && negb (Ascii.eqb c "\"))
                k.

(** No loss of precision at the level of the format: what [json.dump]
    writes for a float is a number literal with a fraction, an exponent or
    a name, and [float] reads it back as the same float. *)
Definition float_format_exact : Prop :=
  forall f : F,
    string_forall is_literal_char (float_repr f) = true
    /\ is_empty (float_repr f) = false
    /\ int_of_json (float_repr f) = None
    /\ float_of_literal (float_repr f) = Some f.

End Probe.

Arguments PyInt {F} z.
Arguments PyFloat {F} f.
Arguments JNumber {F} n.
Arguments JArray {F} items.
Arguments mk_nparray {F} np_dtype np_shape np_items.
Arguments np_dtype {F} n.
Arguments np_shape {F} n.
Arguments np_items {F} n.
Arguments IntVector {F} l.
Arguments FloatVector {F} l.

(** ** Example directories *)

(** Record update of the quality table and of the templates of a
    directory. *)
Definition with_cluster_group_tsv {R : Type} (fd : folder R)
           (file : entry string) : folder R :=
  mk_folder (spike_times_npy fd) (spike_times_master_clock_npy fd)
            (spike_clusters_npy fd) (amplitudes_npy fd) (templates_npy fd)
            (whitening_mat_inv_npy fd) (channel_map_npy fd)
            (pc_features_npy fd) (pc_feature_ind_npy fd) file.

Definition with_templates {R : Type} (fd : folder R)
           (file : entry (tensor3 R)) : folder R :=
  mk_folder (spike_times_npy fd) (spike_times_master_clock_npy fd)
            (spike_clusters_npy fd) (amplitudes_npy fd) file
            (whitening_mat_inv_npy fd) (channel_map_npy fd)
            (pc_features_npy fd) (pc_feature_ind_npy fd)
            (cluster_group_tsv fd).

(** A small directory over integer scalars: three spikes stored as a
    column, two templates of three samples on two channels whose first
    sample is padding, no principal components and no quality table. *)
Definition example_folder : folder Z :=
  mk_folder
    (Holds (mk_ndarray [3; 1] [30; 60; 90]%Z))
    absent
    (Holds (mk_ndarray [3; 1] [5; 2; 5]%Z))
    (Holds (array1 [10; 11; 12]%Z))
    (Holds (mk_tensor3 Z 2 3 2 [0; 0; 1; 2; 3; 4; 0; 0; 5; 6; 7; 8]%Z))
    (Holds (mk_matrix Z 2 2 [1; 1; 0; 2]%Z))
    (Holds (array1 [0; 1]%Z))
    absent
    absent
    absent.

(** The loader on integer scalars, with the default flags and 30 samples
    per unit of time.  The quotient is the integer quotient, which is the
    true quotient on the example directories: their spike times are
    multiples of 30. *)
Definition load_example (fd : folder Z) (template_zero_padding : Z)
  : result (kilosort_data Z) :=
  load_kilosort_data Z 0%Z Z.add Z.mul Z.div fd 30%Z true false false
                     template_zero_padding.

(** The example directory with a quality table that cannot be opened. *)
Definition denied_folder : folder Z :=
  with_cluster_group_tsv example_folder (Fails PermissionError).

(** A quality table whose first identifier is not a number. *)
Definition malformed_table : string :=
  "cluster_id" ++ String TAB "group" ++ String LF
  ("x" ++ String TAB "good" ++ String LF
  ("3" ++ String TAB "noise" ++ String LF EmptyString)).

Definition malformed_folder : folder Z :=
  with_cluster_group_tsv example_folder (Holds malformed_table).

(** No template at all, three channels, and a two-by-two unwhitening
    matrix. *)
Definition no_template_folder : folder Z :=
  with_templates example_folder (Holds (mk_tensor3 Z 0 3 3 [])).

(** One template on three channels and the two-by-two matrix. *)
Definition mismatch_folder : folder Z :=
  with_templates example_folder
    (Holds (mk_tensor3 Z 1 2 3 [1; 2; 3; 4; 5; 6]%Z)).

(** One template on two channels and an unwhitening matrix with a single
    column. *)
Definition column_matrix_folder : folder Z :=
  mk_folder
    (Holds (mk_ndarray [3; 1] [30; 60; 90]%Z))
    absent
    (Holds (mk_ndarray [3; 1] [5; 2; 5]%Z))
    (Holds (array1 [10; 11; 12]%Z))
    (Holds (mk_tensor3 Z 1 2 2 [1; 2; 3; 4]%Z))
    (Holds (mk_matrix Z 2 1 [10; 100]%Z))
    (Holds (array1 [0; 1]%Z))
    absent
    absent
    absent.

(** A recording with a single spike: the spike time and the cluster
    assignment are stored as one-by-one columns. *)
Definition single_spike_folder : folder Z :=
  mk_folder
    (Holds (mk_ndarray [1; 1] [30%Z]))
    absent
    (Holds (mk_ndarray [1; 1] [5%Z]))
    (Holds (array1 [10%Z]))
    (Holds (mk_tensor3 Z 2 3 2 [0; 0; 1; 2; 3; 4; 0; 0; 5; 6; 7; 8]%Z))
    (Holds (mk_matrix Z 2 2 [1; 1; 0; 2]%Z))
    (Holds (array1 [0; 1]%Z))
    absent
    absent
    absent.

(** A quality table without header line: two data rows. *)
Definition headerless_table : string :=
  csv_line "0" "good" ++ csv_line "1" "noise".

(** A few floats with the text Python writes for them: four values, and
    the floats of the integers of magnitude below [10 ^ 16], which are
    written with all their digits and a fraction of zero. *)
Inductive sample_float : Type :=
| Half
| TenMicro
| MinusTwoAndQuarter
| PlusInfinity
| Whole (z : Z).

Definition sample_repr (f : sample_float) : string :=
  match f with
  | Half => "0.5"
  | TenMicro => "1e-05"
  | MinusTwoAndQuarter => "-2.25"
  | PlusInfinity => "Infinity"
  | Whole z => str_of_int z ++ ".0"
  end.

(** The integer of a literal made of an integer and the fraction [.0]. *)
Definition whole_of_literal (lit : string) : option Z :=
  match split_at (Ascii.eqb ".") lit with
  | [whole; frac] =>
      if String.eqb frac "0" then
        match int_of_json whole with
        | Some z => if String.eqb (str_of_int z) whole then Some z else None
        | None => None
        end
      else None
  | _ => None
  end.

Definition sample_of_literal (lit : string) : option sample_float :=
  match whole_of_literal lit with
  | Some z => Some (Whole z)
  | None =>
      if String.eqb lit "0.5" then Some Half
      else if String.eqb lit "1e-05" then Some TenMicro
      else if String.eqb lit "-2.25" then Some MinusTwoAndQuarter
      else if String.eqb lit "Infinity" then Some PlusInfinity
      else None
  end.

Definition sample_of_int (z : Z) : sample_float := Whole z.

(** Nothing is stored, every path names itself, and no opening is
    refused. *)
Definition empty_filesystem : filesystem :=
  mk_filesystem (fun path => path) (fun _ => None) (fun _ => None)
                (fun _ => None).

(** ** Views of a directory *)

(** Record updates of the two spike-time files and of the two
    principal-component files of a directory. *)
Definition with_spike_times {R : Type} (fd : folder R)
           (file : entry (ndarray R)) : folder R :=
  mk_folder file (spike_times_master_clock_npy fd)
            (spike_clusters_npy fd) (amplitudes_npy fd) (templates_npy fd)
            (whitening_mat_inv_npy fd) (channel_map_npy fd)
            (pc_features_npy fd) (pc_feature_ind_npy fd)
            (cluster_group_tsv fd).

Definition with_spike_times_master_clock {R : Type} (fd : folder R)
           (file : entry (ndarray R)) : folder R :=
  mk_folder (spike_times_npy fd) file
            (spike_clusters_npy fd) (amplitudes_npy fd) (templates_npy fd)
            (whitening_mat_inv_npy fd) (channel_map_npy fd)
            (pc_features_npy fd) (pc_feature_ind_npy fd)
            (cluster_group_tsv fd).

Definition with_pcs {R : Type} (fd : folder R)
           (features feature_ind : entry (ndarray R)) : folder R :=
  mk_folder (spike_times_npy fd) (spike_times_master_clock_npy fd)
            (spike_clusters_npy fd) (amplitudes_npy fd) (templates_npy fd)
            (whitening_mat_inv_npy fd) (channel_map_npy fd)
            features feature_ind (cluster_group_tsv fd).

(** The exception an entry raises when it is opened, if any. *)
Definition entry_error {A : Type} (file : entry A) : option exn :=
  match file with
  | Holds _ => None
  | Fails e => Some e
  end.

(** The first exception of a sequence of attempts. *)
Fixpoint first_error (attempts : list (option exn)) : option exn :=
  match attempts with
  | [] => None
  | Some e :: _ => Some e
  | None :: rest => first_error rest
  end.

(** The files the loader opens, in the order it opens them. *)
Definition load_attempts {R : Type} (fd : folder R)
           (use_master_clock include_pcs : bool) : list (option exn) :=
  [ entry_error (selected_spike_times fd use_master_clock);
    entry_error (spike_clusters_npy fd);
    entry_error (amplitudes_npy fd);
    entry_error (templates_npy fd);
    entry_error (whitening_mat_inv_npy fd);
    entry_error (channel_map_npy fd);
    (if include_pcs then entry_error (pc_features_npy fd) else None);
    (if include_pcs then entry_error (pc_feature_ind_npy fd) else None) ].

(** ** Lines of any number of cells *)

(** A line of words with a tabulation between them. *)
Definition tsv_line (ws : list string) : string :=
  String.concat (String TAB EmptyString) ws ++ String LF EmptyString.

(** Is [key] bound in the dictionary? *)
Definition has_key {V : Type} (data : list (string * V)) (key : string)
  : bool :=
  existsb (fun kv => String.eqb (fst kv) key) data.

(** ** Searching a range *)

(** [np.where(cond)[0]] on a one-dimensional condition: the positions
    that hold, in increasing order, counted from [start]. *)
Fixpoint np_where_from (start : nat) (cond : list bool) : list nat :=
  match cond with
  | [] => []
  | c :: rest =>
      if c then start :: np_where_from (S start) rest
      else np_where_from (S start) rest
  end.

Definition np_where (cond : list bool) : list nat := np_where_from 0 cond.

Section FindRange.

(** The scalar type of the data and its four elementwise comparisons
    [>=], [<=], [<] and [>]; nothing is assumed of them. *)
Variable R : Type.
Variables ge le lt gt : R -> R -> bool.

Definition np_logical_and (p q : list bool) : list bool :=
  map (fun pq => fst pq && snd pq) (combine p q).

Definition np_logical_or (p q : list bool) : list bool :=
  map (fun pq => fst pq || snd pq) (combine p q).

(** [find_range(x, a, b, option)] on one-dimensional data [x]. *)
Definition find_range (x : list R) (a b : R) (option : string)
  : result (list nat) :=
  if String.eqb option "within" then
    Ok (np_where (np_logical_and (map (fun v => ge v a) x)
                                 (map (fun v => le v b) x)))
  else if String.eqb option "outside" then
    Ok (np_where (np_logical_or (map (fun v => lt v a) x)
                                (map (fun v => gt v b) x)))
  else Raise ValueError.

End FindRange.

(** ** The progress bar *)

(** Text with characters beyond ASCII: a sequence of code points. *)
Definition ustring : Type := list N.

Definition U_CR : N := 13.
Definition U_LF : N := 10.
Definition U_SPACE : N := 32.
Definition U_PERCENT : N := 37.
Definition LIGHT_SHADE : N := 9617.
Definition MEDIUM_SHADE : N := 9618.

(** [s * n]: [n] copies of [s], none when [n] is not positive. *)
Definition str_mul (s : ustring) (n : Z) : ustring :=
  concat (repeat s (Z.to_nat n)).

(** What a call writes to the standard output, or the exception that
    ends it. *)
Inductive printed : Type :=
| Stdout (text : ustring)
| RaisesZeroDivisionError
| RaisesValueError.

(** [int(length * iteration // total)], for a total other than zero. *)
Definition filledLength (iteration total length : Z) : Z :=
  (length * iteration / total)%Z.

(** [fill * filledLength + LIGHT_SHADE * (length - filledLength)]. *)
Definition bar (iteration total length : Z) (fill : ustring) : ustring :=
  (str_mul fill (filledLength iteration total length)
   ++ str_mul [LIGHT_SHADE]
              (Z.sub length (filledLength iteration total length)))%list.

Section ProgressBar.

(** The text of [100 * (iteration / float(total))] with [decimals]
    decimals, for a total other than zero; [None] when the format
    specification is refused. *)
Variable format_percent : Z -> Z -> Z -> option ustring.

Definition printProgressBar (iteration total : Z) (prefix suffix : ustring)
           (decimals length : Z) (fill : ustring) : printed :=
  if (total =? 0)%Z then RaisesZeroDivisionError
  else
    match format_percent decimals iteration total with
    | None => RaisesValueError
    | Some percent =>
        Stdout ([U_CR] ++ prefix ++ [U_SPACE]
                ++ bar iteration total length fill
                ++ [U_SPACE] ++ percent ++ [U_PERCENT; U_SPACE] ++ suffix
                ++ (if Z.eqb iteration total then [U_LF] else []))%list
    end.

End ProgressBar.

(** * Properties *)

(** ** Row-major buffers *)

Lemma nth_flat_map_block {A B : Type} (g : B -> list A) (m : nat) (d : A)
      (db : B) (l : list B) :
  (forall x, length (g x) = m) ->
  forall i j, i < length l -> j < m ->
  nth (i * m + j) (flat_map g l) d = nth j (g (nth i l db)) d.
Proof.
  intros Hlen. induction l as [| x l IH]; intros i j Hi Hj; simpl in *.
  - lia.
  - destruct i as [| i].
    + simpl. rewrite app_nth1 by (rewrite Hlen; exact Hj). reflexivity.
    + rewrite app_nth2 by (rewrite Hlen; simpl; lia).
      rewrite Hlen.
      replace (S i * m + j - m) with (i * m + j) by (simpl; lia).
      apply IH; lia.
Qed.

Lemma length_flat_map_block {A B : Type} (g : B -> list A) (m : nat)
      (l : list B) :
  (forall x, length (g x) = m) -> length (flat_map g l) = length l * m.
Proof.
  intros Hlen. induction l as [| x l IH]; simpl.
  - reflexivity.
  - rewrite length_app, Hlen, IH. reflexivity.
Qed.

Lemma nth_map_seq {A : Type} (f : nat -> A) (d : A) (c j : nat) :
  j < c -> nth j (map f (seq 0 c)) d = f j.
Proof.
  intros Hj.
  rewrite (nth_indep _ d (f 0)) by (rewrite length_map, length_seq; exact Hj).
  rewrite map_nth, seq_nth by exact Hj. reflexivity.
Qed.

Lemma length_tabulate2 {A : Type} (r c : nat) (f : nat -> nat -> A) :
  length (tabulate2 r c f) = r * c.
Proof.
  unfold tabulate2.
  rewrite (length_flat_map_block _ c), length_seq; [reflexivity |].
  intros x. rewrite length_map, length_seq. reflexivity.
Qed.

Lemma nth_tabulate2 {A : Type} (r c : nat) (f : nat -> nat -> A) (d : A)
      (i j : nat) :
  i < r -> j < c -> nth (i * c + j) (tabulate2 r c f) d = f i j.
Proof.
  intros Hi Hj. unfold tabulate2.
  rewrite (nth_flat_map_block _ c d 0).
  - rewrite seq_nth by exact Hi. simpl. apply nth_map_seq. exact Hj.
  - intros x. rewrite length_map, length_seq. reflexivity.
  - rewrite length_seq. exact Hi.
  - exact Hj.
Qed.

Lemma length_tabulate3 {A : Type} (n t c : nat) (f : nat -> nat -> nat -> A) :
  length (tabulate3 n t c f) = n * (t * c).
Proof.
  unfold tabulate3.
  rewrite (length_flat_map_block _ (t * c)), length_seq; [reflexivity |].
  intros x. apply length_tabulate2.
Qed.

Lemma nth_tabulate3 {A : Type} (n t c : nat) (f : nat -> nat -> nat -> A)
      (d : A) (i j k : nat) :
  i < n -> j < t -> k < c ->
  nth ((i * t + j) * c + k) (tabulate3 n t c f) d = f i j k.
Proof.
  intros Hi Hj Hk. unfold tabulate3.
  replace ((i * t + j) * c + k) with (i * (t * c) + (j * c + k)) by lia.
  rewrite (nth_flat_map_block _ (t * c) d 0).
  - rewrite seq_nth by exact Hi. simpl. apply nth_tabulate2; assumption.
  - intros x. apply length_tabulate2.
  - rewrite length_seq. exact Hi.
  - nia.
Qed.

Lemma flat_map_ext_In {A B : Type} (f g : B -> list A) (l : list B) :
  (forall x, In x l -> f x = g x) -> flat_map f l = flat_map g l.
Proof.
  induction l as [| x l IH]; intros H; simpl.
  - reflexivity.
  - rewrite (H x) by (left; reflexivity).
    rewrite IH by (intros y Hy; apply H; right; exact Hy).
    reflexivity.
Qed.

Lemma tabulate2_ext {A : Type} (r c : nat) (f g : nat -> nat -> A) :
  (forall i j, i < r -> j < c -> f i j = g i j) ->
  tabulate2 r c f = tabulate2 r c g.
Proof.
  intros H. unfold tabulate2.
  apply flat_map_ext_In. intros i Hi. apply in_seq in Hi.
  apply map_ext_in. intros j Hj. apply in_seq in Hj.
  apply H; lia.
Qed.

Lemma tabulate3_ext {A : Type} (n t c : nat) (f g : nat -> nat -> nat -> A) :
  (forall i j k, i < n -> j < t -> k < c -> f i j k = g i j k) ->
  tabulate3 n t c f = tabulate3 n t c g.
Proof.
  intros H. unfold tabulate3.
  apply flat_map_ext_In. intros i Hi. apply in_seq in Hi.
  apply tabulate2_ext. intros j k Hj Hk. apply H; lia.
Qed.

Section ArrayFacts.

Variable R : Type.
Variables (zero : R) (add mul : R -> R -> R).

Local Abbreviation get2 := (get2 R zero).
Local Abbreviation get3 := (get3 R zero).
Local Abbreviation mk2 := (mk2 R).
Local Abbreviation mk3 := (mk3 R).
Local Abbreviation slice2 := (slice2 R zero).
Local Abbreviation strip_padding := (strip_padding R zero).
Local Abbreviation dot_entry := (dot_entry R zero add mul).
Local Abbreviation matmul := (matmul R zero add mul).
Local Abbreviation np_dot := (np_dot R zero add mul).
Local Abbreviation setitem_slice := (setitem_slice R zero).
Local Abbreviation unwhiten_loop := (unwhiten_loop R zero add mul).
Local Abbreviation unwhiten := (unwhiten R zero add mul).
Local Abbreviation np_zeros := (np_zeros R zero).

Lemma get2_mk2 (r c : nat) (f : nat -> nat -> R) (i j : nat) :
  i < r -> j < c -> get2 (mk2 r c f) i j = f i j.
Proof. intros Hi Hj. unfold get2. simpl. apply nth_tabulate2; assumption. Qed.

Lemma get3_mk3 (n t c : nat) (f : nat -> nat -> nat -> R) (i j k : nat) :
  i < n -> j < t -> k < c -> get3 (mk3 n t c f) i j k = f i j k.
Proof.
  intros Hi Hj Hk. unfold get3. simpl. apply nth_tabulate3; assumption.
Qed.

Lemma mk2_ext (r c : nat) (f g : nat -> nat -> R) :
  (forall i j, i < r -> j < c -> f i j = g i j) -> mk2 r c f = mk2 r c g.
Proof. intros H. unfold mk2. f_equal. apply tabulate2_ext. exact H. Qed.

(** The slice [p:] of an axis of length [len] when [0 <= p <= len]. *)
Lemma slice_start_in_range (p : Z) (len : nat) :
  (0 <= p <= Z.of_nat len)%Z -> slice_start p len = Z.to_nat p.
Proof.
  intros Hp. unfold slice_start.
  destruct (p <? 0)%Z eqn:E; [apply Z.ltb_lt in E; lia |].
  f_equal. lia.
Qed.

Lemma slice_start_le (p : Z) (len : nat) : slice_start p len <= len.
Proof.
  unfold slice_start. destruct (p <? 0)%Z eqn:E.
  - apply Z.ltb_lt in E. lia.
  - apply Z.ltb_ge in E. lia.
Qed.

Lemma strip_padding_dims (templates : tensor3 R) (p : Z) :
  dim0 R (strip_padding templates p) = dim0 R templates
  /\ dim1 R (strip_padding templates p)
     = dim1 R templates - slice_start p (dim1 R templates)
  /\ dim2 R (strip_padding templates p) = dim2 R templates.
Proof. unfold strip_padding. simpl. auto. Qed.

Lemma get3_strip_padding (templates : tensor3 R) (p : Z) (i j k : nat) :
  i < dim0 R templates ->
  j < dim1 R templates - slice_start p (dim1 R templates) ->
  k < dim2 R templates ->
  get3 (strip_padding templates p) i j k
  = get3 templates i (slice_start p (dim1 R templates) + j) k.
Proof.
  intros Hi Hj Hk. unfold strip_padding.
  rewrite get3_mk3 by assumption. reflexivity.
Qed.

Lemma broadcast_index (n j : nat) :
  j < n -> (if n =? 1 then 0 else j) = j.
Proof.
  intros Hj. destruct (n =? 1) eqn:E; [| reflexivity].
  apply Nat.eqb_eq in E. lia.
Qed.

Lemma np_dot_aligned (a b : matrix R) :
  cols R a = rows R b -> np_dot a b = Ok (matmul a b).
Proof. intros H. unfold np_dot. rewrite H, Nat.eqb_refl. reflexivity. Qed.

Lemma np_dot_not_aligned (a b : matrix R) :
  cols R a <> rows R b -> np_dot a b = Raise ValueError.
Proof.
  intros H. unfold np_dot. apply Nat.eqb_neq in H. rewrite H. reflexivity.
Qed.

(** The loop over [seq s k]: the slices [s], ..., [s + k - 1] receive the
    products, the others are kept. *)
Lemma unwhiten_loop_spec (templates : tensor3 R) (w : matrix R) :
  rows R w = dim2 R templates ->
  cols R w = dim2 R templates ->
  forall (k s : nat) (acc : tensor3 R),
    s + k <= dim0 R templates ->
    dim0 R acc = dim0 R templates ->
    dim1 R acc = dim1 R templates ->
    dim2 R acc = dim2 R templates ->
    exists u,
      unwhiten_loop (seq s k) templates w acc = Ok u
      /\ dim0 R u = dim0 R templates
      /\ dim1 R u = dim1 R templates
      /\ dim2 R u = dim2 R templates
      /\ forall i j c,
          i < dim0 R templates -> j < dim1 R templates ->
          c < dim2 R templates ->
          get3 u i j c
          = if (s <=? i) && (i <? s + k)
            then dot_entry (slice2 templates i) w j c
            else get3 acc i j c.
Proof.
  intros Hrows Hcols. induction k as [| k IH]; intros s acc Hs H0 H1 H2.
  - exists acc. simpl. repeat split; try assumption.
    intros i j c _ _ _.
    replace ((s <=? i) && (i <? s + 0)) with false; [reflexivity |].
    symmetry. apply andb_false_iff.
    destruct (s <=? i) eqn:E; [right | left; reflexivity].
    apply Nat.leb_le in E. apply Nat.ltb_ge. lia.
  - simpl. rewrite np_dot_aligned by (simpl; symmetry; exact Hrows).
    simpl. unfold setitem_slice.
    replace (s <? dim0 R acc) with true
      by (symmetry; apply Nat.ltb_lt; lia).
    simpl. unfold broadcastable.
    rewrite H1, H2, Hcols, !Nat.eqb_refl. simpl.
    destruct (IH (S s)
                 (mk3 (dim0 R acc) (dim1 R templates) (dim2 R templates)
                      (fun i' j k0 =>
                         if i' =? s
                         then get2 (matmul (slice2 templates s) w)
                                   (if dim1 R templates =? 1 then 0 else j)
                                   (if dim2 R templates =? 1 then 0 else k0)
                         else get3 acc i' j k0)))
      as (u & Hu & Hu0 & Hu1 & Hu2 & Hget);
      try (simpl; lia).
    exists u. rewrite Hu. repeat split; try assumption.
    intros i j c Hi Hj Hc. rewrite (Hget i j c Hi Hj Hc).
    rewrite get3_mk3 by lia.
    rewrite !broadcast_index by assumption.
    destruct (i =? s) eqn:Eis.
    + apply Nat.eqb_eq in Eis. subst i.
      replace (S s <=? s) with false by (symmetry; apply Nat.leb_gt; lia).
      rewrite Nat.leb_refl.
      replace (s <? s + S k) with true by (symmetry; apply Nat.ltb_lt; lia).
      simpl. unfold matmul. simpl. rewrite Hcols.
      apply get2_mk2; assumption.
    + apply Nat.eqb_neq in Eis.
      replace (s + S k) with (S s + k) by lia.
      replace (S s <=? i) with (s <=? i); [reflexivity |].
      destruct (s <=? i) eqn:E1; symmetry.
      * apply Nat.leb_le in E1. apply Nat.leb_le. lia.
      * apply Nat.leb_gt in E1. apply Nat.leb_gt. lia.
Qed.

(** With a channel-by-channel unwhitening matrix the reconstruction
    returns, keeps the shape, and every slice is the matrix product. *)
Lemma unwhiten_spec (templates : tensor3 R) (w : matrix R) :
  rows R w = dim2 R templates ->
  cols R w = dim2 R templates ->
  exists u,
    unwhiten templates w = Ok u
    /\ shape3 R u = shape3 R templates
    /\ forall i, i < dim0 R templates ->
                 slice2 u i = matmul (slice2 templates i) w.
Proof.
  intros Hrows Hcols. unfold unwhiten.
  destruct (unwhiten_loop_spec templates w Hrows Hcols
              (dim0 R templates) 0 (np_zeros (shape3 R templates)))
    as (u & Hu & Hu0 & Hu1 & Hu2 & Hget); try (simpl; lia).
  exists u. split; [exact Hu |]. split.
  - unfold shape3. rewrite Hu0, Hu1, Hu2. reflexivity.
  - intros i Hi. unfold slice2 at 1, matmul. simpl.
    rewrite Hu1, Hu2, Hcols. apply mk2_ext. intros j c Hj Hc.
    rewrite (Hget i j c Hi Hj Hc).
    replace (i <? 0 + dim0 R templates) with true
      by (symmetry; apply Nat.ltb_lt; lia).
    reflexivity.
Qed.

(** A matrix whose row count is not the channel count stops the loop at
    the first template. *)
Lemma unwhiten_not_aligned (templates : tensor3 R) (w : matrix R) :
  0 < dim0 R templates ->
  rows R w <> dim2 R templates ->
  unwhiten templates w = Raise ValueError.
Proof.
  intros Hn Hrows. unfold unwhiten.
  destruct (dim0 R templates) as [| n]; [lia |].
  simpl. rewrite np_dot_not_aligned by (simpl; congruence). reflexivity.
Qed.

(** Without templates the loop body never runs. *)
Lemma unwhiten_no_template (templates : tensor3 R) (w : matrix R) :
  dim0 R templates = 0 ->
  unwhiten templates w = Ok (np_zeros (shape3 R templates)).
Proof. intros Hn. unfold unwhiten. rewrite Hn. reflexivity. Qed.

End ArrayFacts.

Lemma fold_left_ext_in {A B : Type} (f g : A -> B -> A) (l : list B) :
  forall a,
    (forall acc x, In x l -> f acc x = g acc x) ->
    fold_left f l a = fold_left g l a.
Proof.
  induction l as [| x l IH]; intros a H; simpl; [reflexivity |].
  rewrite (H a x) by (left; reflexivity).
  apply IH. intros acc y Hy. apply H. right. exact Hy.
Qed.

(** ** The loader, step by step *)

Section LoaderFacts.

Variable R : Type.
Variables (zero : R) (add mul div : R -> R -> R).

Local Abbreviation load_kilosort_data := (load_kilosort_data R zero add mul div).
Local Abbreviation strip_padding := (strip_padding R zero).
Local Abbreviation unwhiten := (unwhiten R zero add mul).

(** What a returned bundle says about the directory and the steps. *)
Lemma load_kilosort_data_inv (fd : folder R) (sample_rate : R)
      (convert_to_seconds use_master_clock include_pcs : bool) (p : Z)
      (b : kilosort_data R) :
  load_kilosort_data fd sample_rate convert_to_seconds use_master_clock
                     include_pcs p = Ok b ->
  exists st sc amp t w cm pc u ids quality,
    selected_spike_times fd use_master_clock = Holds st
    /\ spike_clusters_npy fd = Holds sc
    /\ amplitudes_npy fd = Holds amp
    /\ templates_npy fd = Holds t
    /\ whitening_mat_inv_npy fd = Holds w
    /\ channel_map_npy fd = Holds cm
    /\ loaded_pcs fd include_pcs = Ok pc
    /\ unwhiten (strip_padding t p) w = Ok u
    /\ resolve_cluster_quality (cluster_group_tsv fd) (np_squeeze sc)
       = Ok (ids, quality)
    /\ b = mk_kilosort_data
             (if convert_to_seconds
              then ndmap (fun x => div x sample_rate) (np_squeeze st)
              else np_squeeze st)
             (np_squeeze sc) amp u cm ids quality pc.
Proof.
  unfold load_kilosort_data, selected_spike_times.
  fold (loaded_pcs fd include_pcs).
  intros H.
  assert (Hst : (if use_master_clock
                 then load (spike_times_master_clock_npy fd)
                 else load (spike_times_npy fd))
                = load (if use_master_clock
                        then spike_times_master_clock_npy fd
                        else spike_times_npy fd))
    by (destruct use_master_clock; reflexivity).
  rewrite Hst in H. clear Hst.
  destruct (if use_master_clock then spike_times_master_clock_npy fd
            else spike_times_npy fd) as [st |] eqn:Est; [| discriminate].
  destruct (spike_clusters_npy fd) as [sc |] eqn:Esc; [| discriminate].
  destruct (amplitudes_npy fd) as [amp |] eqn:Eamp; [| discriminate].
  destruct (templates_npy fd) as [t |] eqn:Et; [| discriminate].
  destruct (whitening_mat_inv_npy fd) as [w |] eqn:Ew; [| discriminate].
  destruct (channel_map_npy fd) as [cm |] eqn:Ecm; [| discriminate].
  simpl in H.
  destruct (loaded_pcs fd include_pcs) as [pc |] eqn:Epc; [| discriminate].
  simpl in H.
  destruct (unwhiten (strip_padding t p) w) as [u |] eqn:Eu;
    [| discriminate].
  simpl in H.
  destruct (resolve_cluster_quality (cluster_group_tsv fd) (np_squeeze sc))
    as [[ids quality] |] eqn:Eq; [| discriminate].
  simpl in H. injection H as <-.
  exists st, sc, amp, t, w, cm, pc, u, ids, quality.
  repeat split; try reflexivity; assumption.
Qed.

(** The loader once the arrays are loaded. *)
Lemma load_kilosort_data_loaded (fd : folder R) (sample_rate : R)
      (convert_to_seconds use_master_clock include_pcs : bool) (p : Z)
      st sc amp t w cm pc :
  selected_spike_times fd use_master_clock = Holds st ->
  spike_clusters_npy fd = Holds sc ->
  amplitudes_npy fd = Holds amp ->
  templates_npy fd = Holds t ->
  whitening_mat_inv_npy fd = Holds w ->
  channel_map_npy fd = Holds cm ->
  loaded_pcs fd include_pcs = Ok pc ->
  load_kilosort_data fd sample_rate convert_to_seconds use_master_clock
                     include_pcs p
  = (u <- unwhiten (strip_padding t p) w ;;
     ' (ids, quality) <-
       resolve_cluster_quality (cluster_group_tsv fd) (np_squeeze sc) ;;
     Ok (mk_kilosort_data
           (if convert_to_seconds
            then ndmap (fun x => div x sample_rate) (np_squeeze st)
            else np_squeeze st)
           (np_squeeze sc) amp u cm ids quality pc)).
Proof.
  unfold load_kilosort_data, selected_spike_times.
  fold (loaded_pcs fd include_pcs).
  intros Hst -> -> -> -> -> ->.
  destruct use_master_clock; rewrite Hst; reflexivity.
Qed.

End LoaderFacts.

(** ** [np.unique] *)

Lemma In_insert_sorted (x y : Z) (l : list Z) :
  In y (insert_sorted x l) <-> y = x \/ In y l.
Proof.
  induction l as [| z l IH]; simpl.
  - intuition congruence.
  - destruct (x <=? z)%Z; simpl; [intuition congruence |].
    rewrite IH. intuition congruence.
Qed.

Lemma insert_sorted_sorted (x : Z) (l : list Z) :
  StronglySorted Z.le l -> StronglySorted Z.le (insert_sorted x l).
Proof.
  induction l as [| z l IH]; intros Hs; simpl.
  - constructor; constructor.
  - destruct (x <=? z)%Z eqn:E.
    + apply Z.leb_le in E. constructor; [exact Hs |].
      constructor; [exact E |].
      inversion Hs as [| ? ? _ Hall]; subst.
      eapply Forall_impl; [| exact Hall]. intros w Hw. simpl in Hw. lia.
    + apply Z.leb_gt in E. inversion Hs as [| ? ? Hl Hall]; subst.
      constructor; [apply IH; exact Hl |].
      apply Forall_forall. intros w Hw. apply In_insert_sorted in Hw.
      destruct Hw as [-> | Hw]; [lia |].
      rewrite Forall_forall in Hall. apply Hall. exact Hw.
Qed.

Lemma sort_sorted (l : list Z) : StronglySorted Z.le (sort l).
Proof.
  induction l as [| x l IH]; simpl.
  - constructor.
  - apply insert_sorted_sorted. exact IH.
Qed.

Lemma In_sort (x : Z) (l : list Z) : In x (sort l) <-> In x l.
Proof.
  induction l as [| y l IH]; simpl.
  - reflexivity.
  - rewrite In_insert_sorted, IH. intuition congruence.
Qed.

Lemma keep_changes_spec (l : list Z) :
  forall prev,
    StronglySorted Z.le (prev :: l) ->
    StronglySorted Z.lt (prev :: keep_changes prev l)
    /\ forall x, In x (prev :: keep_changes prev l) <-> In x (prev :: l).
Proof.
  induction l as [| y l IH]; intros prev Hs; simpl.
  - split; [constructor; constructor | reflexivity].
  - inversion Hs as [| ? ? Hyl Hall]; subst.
    inversion Hall as [| ? ? Hpy Hall']; subst.
    destruct (y =? prev)%Z eqn:E.
    + apply Z.eqb_eq in E. subst y.
      destruct (IH prev) as [IHs IHin].
      { constructor; [| exact Hall'].
        inversion Hyl; assumption. }
      split; [exact IHs |].
      intros x. specialize (IHin x). simpl in *. intuition congruence.
    + apply Z.eqb_neq in E.
      destruct (IH y Hyl) as [IHs IHin].
      split.
      * constructor; [exact IHs |].
        inversion IHs as [| ? ? _ Hlt]; subst.
        constructor; [lia |].
        eapply Forall_impl; [| exact Hlt]. intros w Hw. simpl in Hw. lia.
      * intros x. specialize (IHin x). simpl in *. intuition congruence.
Qed.

(** [np.unique] returns the values of the array, each once, in strictly
    ascending order, as a one-dimensional array. *)
Lemma np_unique_spec (a : ndarray Z) :
  StronglySorted Z.lt (data (np_unique a))
  /\ (forall x, In x (data (np_unique a)) <-> In x (data a))
  /\ shape (np_unique a) = [length (data (np_unique a))].
Proof.
  unfold np_unique. simpl.
  pose proof (sort_sorted (data a)) as Hs.
  pose proof (fun x => In_sort x (data a)) as Hin.
  destruct (sort (data a)) as [| x xs].
  - split; [constructor |]. split; [| reflexivity].
    intros y. rewrite <- Hin. reflexivity.
  - destruct (keep_changes_spec xs x Hs) as [Hlt Heq].
    split; [exact Hlt |]. split; [| reflexivity].
    intros y. rewrite Heq. apply Hin.
Qed.

Lemma squeeze_data {A : Type} (a : ndarray A) : data (np_squeeze a) = data a.
Proof. reflexivity. Qed.

(** An array with one axis of length [n] other than one, and any number of
    axes of length one, squeezes to the one-dimensional array of length
    [n]. *)
Lemma squeeze_singleton_axes {A : Type} (before after : list nat) (n : nat)
      (buf : list A) :
  n <> 1 ->
  Forall (fun d => d = 1) before ->
  Forall (fun d => d = 1) after ->
  np_squeeze (mk_ndarray (before ++ n :: after) buf) = mk_ndarray [n] buf.
Proof.
  intros Hn Hb Ha. unfold np_squeeze. simpl. f_equal.
  assert (Hones : forall l, Forall (fun d => d = 1) l ->
                            filter (fun d => negb (d =? 1)) l = []).
  { induction l as [| d l IH]; intros Hl; simpl; [reflexivity |].
    inversion Hl; subst. simpl. apply IH. assumption. }
  rewrite filter_app. simpl.
  rewrite (Hones before Hb), (Hones after Ha).
  apply Nat.eqb_neq in Hn. rewrite Hn. reflexivity.
Qed.

(** ** The loader's contracts *)

Section LoaderContracts.

Variable R : Type.
Variables (zero : R) (add mul div : R -> R -> R).

Local Abbreviation load_kilosort_data := (load_kilosort_data R zero add mul div).
Local Abbreviation strip_padding := (strip_padding R zero).
Local Abbreviation unwhiten := (unwhiten R zero add mul).
Local Abbreviation get3 := (get3 R zero).
Local Abbreviation slice2 := (slice2 R zero).
Local Abbreviation matmul := (matmul R zero add mul).
Local Abbreviation get2 := (get2 R zero).

(** C6, as amended.  For a padding width [p] with [0 <= p <= T], where [T]
    is the time length of the raw template tensor, [templates[:, p:, :]]
    has time length [T - p], keeps the template and channel axes, and its
    value at [(i, t, c)] is the raw value at [(i, p + t, c)]. *)
Theorem strip_padding_exact (templates : tensor3 R) (p : Z) :
  (0 <= p <= Z.of_nat (dim1 R templates))%Z ->
  let stripped := strip_padding templates p in
  dim0 R stripped = dim0 R templates
  /\ dim2 R stripped = dim2 R templates
  /\ Z.of_nat (dim1 R stripped) = (Z.of_nat (dim1 R templates) - p)%Z
  /\ length (buf3 R stripped)
     = dim0 R stripped * (dim1 R stripped * dim2 R stripped)
  /\ forall i t c,
      i < dim0 R templates -> t < dim1 R stripped -> c < dim2 R templates ->
      get3 stripped i t c = get3 templates i (Z.to_nat p + t) c.
Proof.
  intros Hp stripped. subst stripped.
  destruct (strip_padding_dims R zero templates p) as (H0 & H1 & H2).
  rewrite (slice_start_in_range p _ Hp) in H1.
  split; [exact H0 |]. split; [exact H2 |]. split; [lia |]. split.
  - unfold strip_padding. simpl.
    apply length_tabulate3.
  - intros i t c Hi Ht Hc. rewrite H1 in Ht.
    rewrite get3_strip_padding;
      rewrite ?(slice_start_in_range p _ Hp); try assumption.
    reflexivity.
Qed.


(** C7, as amended.  With at least one template, an unwhitening matrix
    whose number of rows is not the channel count of the templates makes
    the reconstruction raise [ValueError]: the loader returns no result,
    and raises this very error once the arrays are loaded. *)
Theorem shape_mismatch_raises (fd : folder R) (sample_rate : R)
        (convert_to_seconds use_master_clock include_pcs : bool) (p : Z)
        (t : tensor3 R) (w : matrix R) :
  templates_npy fd = Holds t ->
  whitening_mat_inv_npy fd = Holds w ->
  0 < dim0 R t ->
  rows R w <> dim2 R t ->
  unwhiten (strip_padding t p) w = Raise ValueError
  /\ (exists e,
        load_kilosort_data fd sample_rate convert_to_seconds
                           use_master_clock include_pcs p = Raise e)
  /\ forall st sc amp cm pc,
      selected_spike_times fd use_master_clock = Holds st ->
      spike_clusters_npy fd = Holds sc ->
      amplitudes_npy fd = Holds amp ->
      channel_map_npy fd = Holds cm ->
      loaded_pcs fd include_pcs = Ok pc ->
      load_kilosort_data fd sample_rate convert_to_seconds
                         use_master_clock include_pcs p = Raise ValueError.
Proof.
  intros Ht Hw Hn Hrows.
  assert (Hu : unwhiten (strip_padding t p) w = Raise ValueError)
    by (apply unwhiten_not_aligned; simpl; assumption).
  split; [exact Hu |]. split.
  - destruct (load_kilosort_data fd sample_rate convert_to_seconds
                                 use_master_clock include_pcs p)
      as [b | e] eqn:Hload; [| exists e; reflexivity].
    apply load_kilosort_data_inv in Hload.
    destruct Hload as (st & sc & amp & t' & w' & cm & pc & u' & ids & q
                       & _ & _ & _ & Ht' & Hw' & _ & _ & Hu' & _).
    rewrite Ht in Ht'. injection Ht' as <-.
    rewrite Hw in Hw'. injection Hw' as <-.
    rewrite Hu in Hu'. discriminate.
  - intros st sc amp cm pc Hst Hsc Hamp Hcm Hpc.
    rewrite (load_kilosort_data_loaded R zero add mul div fd sample_rate
               convert_to_seconds use_master_clock include_pcs p
               st sc amp t w cm pc) by assumption.
    rewrite Hu. reflexivity.
Qed.

(** C1, as amended.  When reading the quality table raises [e] and the
    arrays are loaded and reconstructed: if [e] is an [OSError] (file not
    found, but a permission error as well) the loader returns, with the
    record synthesized from the cluster assignments, that is their values
    in ascending order, each once and each labelled "unsorted"; if [e] is
    not an [OSError] the loader raises [e]. *)
Theorem quality_fallback_on_OSError (fd : folder R) (sample_rate : R)
        (convert_to_seconds use_master_clock include_pcs : bool) (p : Z)
        (e : exn) (st : ndarray R) (sc : ndarray Z) (amp : ndarray R)
        (t : tensor3 R) (w : matrix R) (cm : ndarray R)
        (pc : option (ndarray R * ndarray R)) (u : tensor3 R) :
  read_cluster_group_tsv (cluster_group_tsv fd) = Raise e ->
  selected_spike_times fd use_master_clock = Holds st ->
  spike_clusters_npy fd = Holds sc ->
  amplitudes_npy fd = Holds amp ->
  templates_npy fd = Holds t ->
  whitening_mat_inv_npy fd = Holds w ->
  channel_map_npy fd = Holds cm ->
  loaded_pcs fd include_pcs = Ok pc ->
  unwhiten (strip_padding t p) w = Ok u ->
  (is_OSError e = true ->
   exists b,
     load_kilosort_data fd sample_rate convert_to_seconds use_master_clock
                        include_pcs p = Ok b
     /\ cluster_ids b = data (np_unique (np_squeeze sc))
     /\ StronglySorted Z.lt (cluster_ids b)
     /\ (forall x, In x (cluster_ids b) <-> In x (data sc))
     /\ cluster_quality b = repeat "unsorted" (length (cluster_ids b)))
  /\ (is_OSError e = false ->
      load_kilosort_data fd sample_rate convert_to_seconds use_master_clock
                         include_pcs p = Raise e).
Proof.
  intros Hread Hst Hsc Hamp Ht Hw Hcm Hpc Hu.
  rewrite (load_kilosort_data_loaded R zero add mul div fd sample_rate
             convert_to_seconds use_master_clock include_pcs p
             st sc amp t w cm pc) by assumption.
  rewrite Hu. cbn [bind].
  unfold resolve_cluster_quality, try_except_OSError. rewrite Hread.
  split; intros He; rewrite He; [| reflexivity].
  eexists. split; [reflexivity |]. cbn [cluster_ids cluster_quality].
  destruct (np_unique_spec (np_squeeze sc)) as (Hs & Hin & _).
  repeat split; try assumption; try apply Hin.
Qed.

(** C4.  When the quality table is absent, a returned bundle holds the
    normalized cluster assignments of [spike_clusters.npy], its cluster
    identifiers are the values of these assignments, each once, in strictly
    ascending order, and its quality labels are ["unsorted"], one for every
    identifier. *)
Theorem fallback_record_content (fd : folder R) (sample_rate : R)
        (convert_to_seconds use_master_clock include_pcs : bool) (p : Z)
        (sc : ndarray Z) (b : kilosort_data R) :
  cluster_group_tsv fd = absent ->
  spike_clusters_npy fd = Holds sc ->
  load_kilosort_data fd sample_rate convert_to_seconds use_master_clock
                     include_pcs p = Ok b ->
  spike_clusters b = np_squeeze sc
  /\ StronglySorted Z.lt (cluster_ids b)
  /\ (forall x, In x (cluster_ids b) <-> In x (data sc))
  /\ cluster_quality b = repeat "unsorted" (length (cluster_ids b))
  /\ length (cluster_quality b) = length (cluster_ids b).
Proof.
  intros Habs Hsc Hload. apply load_kilosort_data_inv in Hload.
  destruct Hload as (st & sc' & amp & t & w & cm & pc & u & ids & q
                     & _ & Hsc' & _ & _ & _ & _ & _ & _ & Hq & ->).
  rewrite Hsc in Hsc'. injection Hsc' as <-.
  rewrite Habs in Hq. simpl in Hq. injection Hq as <- <-. simpl.
  destruct (np_unique_spec (np_squeeze sc)) as (Hs & Hin & _).
  repeat split; try assumption; try apply Hin.
  apply repeat_length.
Qed.

(** C10.  The amplitudes and the channel map of a returned bundle are the
    arrays the directory holds. *)
Theorem amplitudes_channel_map_passthrough (fd : folder R) (sample_rate : R)
        (convert_to_seconds use_master_clock include_pcs : bool) (p : Z)
        (b : kilosort_data R) :
  load_kilosort_data fd sample_rate convert_to_seconds use_master_clock
                     include_pcs p = Ok b ->
  amplitudes_npy fd = Holds (amplitudes b)
  /\ channel_map_npy fd = Holds (channel_map b).
Proof.
  intros Hload. apply load_kilosort_data_inv in Hload.
  destruct Hload as (st & sc & amp & t & w & cm & pc & u & ids & q
                     & _ & _ & Hamp & _ & _ & Hcm & _ & _ & _ & ->).
  simpl. split; assumption.
Qed.

End LoaderContracts.

(** ** The contracts on the example directories *)

(** C6, counterexample: a padding width beyond the time length.  The raw
    tensor has time length 2 and the width is 3; the stripped tensor has
    time length 0, which is not [2 - 3]. *)
Lemma strip_padding_beyond_time_length :
  let raw := mk_tensor3 Z 1 2 1 [7; 8]%Z in
  dim1 Z (strip_padding Z 0%Z raw 3) = 0
  /\ Z.of_nat (dim1 Z (strip_padding Z 0%Z raw 3))
     <> (Z.of_nat (dim1 Z raw) - 3)%Z.
Proof. simpl. split; [reflexivity | discriminate]. Qed.

(** C6, witness: the example templates and the width 1. *)
Lemma strip_padding_exact_example :
  let templates := mk_tensor3 Z 2 3 2 [0; 0; 1; 2; 3; 4; 0; 0; 5; 6; 7; 8]%Z in
  let stripped := strip_padding Z 0%Z templates 1 in
  dim0 Z stripped = dim0 Z templates
  /\ dim2 Z stripped = dim2 Z templates
  /\ Z.of_nat (dim1 Z stripped) = (Z.of_nat (dim1 Z templates) - 1)%Z
  /\ length (buf3 Z stripped)
     = dim0 Z stripped * (dim1 Z stripped * dim2 Z stripped)
  /\ forall i t c,
      i < dim0 Z templates -> t < dim1 Z stripped -> c < dim2 Z templates ->
      get3 Z 0%Z stripped i t c = get3 Z 0%Z templates i (Z.to_nat 1 + t) c.
Proof.
  intros templates.
  apply (strip_padding_exact Z 0%Z templates 1).
  simpl. lia.
Defined.


(** C7, counterexample: no template, three channels and a two-by-two
    unwhitening matrix; the loader returns an empty tensor. *)
Lemma shape_mismatch_without_template :
  exists t w b,
    templates_npy no_template_folder = Holds t
    /\ whitening_mat_inv_npy no_template_folder = Holds w
    /\ rows Z w = cols Z w
    /\ rows Z w <> dim2 Z t
    /\ load_example no_template_folder 1 = Ok b
    /\ shape3 Z (unwhitened_temps b) = (0, 2, 3).
Proof.
  eexists; eexists; eexists.
  split; [reflexivity |]. split; [reflexivity |].
  split; [reflexivity |]. split; [simpl; discriminate |].
  split; [vm_compute; reflexivity | reflexivity].
Qed.

(** C7, witness: one template on three channels and the two-by-two
    matrix. *)
Lemma shape_mismatch_raises_example :
  unwhiten Z 0%Z Z.add Z.mul
           (strip_padding Z 0%Z (mk_tensor3 Z 1 2 3 [1; 2; 3; 4; 5; 6]%Z) 1)
           (mk_matrix Z 2 2 [1; 1; 0; 2]%Z)
  = Raise ValueError
  /\ (exists e, load_example mismatch_folder 1 = Raise e)
  /\ forall st sc amp cm pc,
      selected_spike_times mismatch_folder false = Holds st ->
      spike_clusters_npy mismatch_folder = Holds sc ->
      amplitudes_npy mismatch_folder = Holds amp ->
      channel_map_npy mismatch_folder = Holds cm ->
      loaded_pcs mismatch_folder false = Ok pc ->
      load_example mismatch_folder 1 = Raise ValueError.
Proof.
  apply (shape_mismatch_raises Z 0%Z Z.add Z.mul Z.div mismatch_folder 30%Z
           true false false 1
           (mk_tensor3 Z 1 2 3 [1; 2; 3; 4; 5; 6]%Z)
           (mk_matrix Z 2 2 [1; 1; 0; 2]%Z)).
  - reflexivity.
  - reflexivity.
  - simpl. lia.
  - simpl. discriminate.
Defined.

(** Beside C7: an unwhitening matrix with the right number of rows and a
    single column raises nothing either; the column of products is repeated
    on every channel by the slice assignment. *)
Remark column_matrix_is_broadcast :
  exists b,
    load_example column_matrix_folder 0 = Ok b
    /\ unwhitened_temps b = mk_tensor3 Z 1 2 2 [210; 210; 430; 430]%Z.
Proof. eexists. split; [vm_compute; reflexivity | reflexivity]. Qed.

(** C1, counterexample: opening the quality table raises
    [PermissionError], which is not a file-not-found condition, and the
    loader returns the synthesized record. *)
Lemma permission_error_is_swallowed :
  read_cluster_group_tsv (cluster_group_tsv denied_folder)
  = Raise PermissionError
  /\ PermissionError <> FileNotFoundError
  /\ exists b,
      load_example denied_folder 1 = Ok b
      /\ cluster_ids b = [2; 5]%Z
      /\ cluster_quality b = ["unsorted"; "unsorted"].
Proof.
  split; [reflexivity |]. split; [discriminate |].
  eexists. split; [vm_compute; reflexivity |]. split; reflexivity.
Qed.

(** C1, witness: with a quality table that raises [PermissionError] the
    loader returns the synthesized record; with a table whose first
    identifier is not a number the reader raises [ValueError], and so does
    the loader. *)
Lemma quality_fallback_on_OSError_example :
  (exists b,
      load_example denied_folder 1 = Ok b
      /\ cluster_ids b = [2; 5]%Z
      /\ cluster_quality b = ["unsorted"; "unsorted"])
  /\ load_example malformed_folder 1 = Raise ValueError.
Proof.
  split.
  - edestruct (proj1 (quality_fallback_on_OSError
                        Z 0%Z Z.add Z.mul Z.div denied_folder 30%Z
                        true false false 1 PermissionError
                        _ _ _ _ _ _ _ _
                        eq_refl eq_refl eq_refl eq_refl eq_refl eq_refl
                        eq_refl eq_refl eq_refl) eq_refl)
      as (b & Hb & Hids & _ & _ & Hq).
    exists b. split; [exact Hb |]. split; [exact Hids |].
    rewrite Hq, Hids. reflexivity.
  - eapply (proj2 (quality_fallback_on_OSError
                     Z 0%Z Z.add Z.mul Z.div malformed_folder 30%Z
                     true false false 1 ValueError
                     _ _ _ _ _ _ _ _
                     eq_refl eq_refl eq_refl eq_refl eq_refl eq_refl
                     eq_refl eq_refl eq_refl) eq_refl).
Defined.

(** C4, witness: the example directory has no quality table; its cluster
    assignments 5, 2, 5 give the identifiers 2 and 5. *)
Lemma fallback_record_content_example :
  exists b,
    load_example example_folder 1 = Ok b
    /\ cluster_ids b = [2; 5]%Z
    /\ cluster_quality b = ["unsorted"; "unsorted"]
    /\ spike_clusters b = np_squeeze (mk_ndarray [3; 1] [5; 2; 5]%Z)
    /\ StronglySorted Z.lt (cluster_ids b)
    /\ (forall x, In x (cluster_ids b) <-> In x [5; 2; 5]%Z)
    /\ cluster_quality b = repeat "unsorted" (length (cluster_ids b))
    /\ length (cluster_quality b) = length (cluster_ids b).
Proof.
  eexists. split; [vm_compute; reflexivity |].
  split; [reflexivity |]. split; [reflexivity |].
  eapply (fallback_record_content Z 0%Z Z.add Z.mul Z.div example_folder
            30%Z true false false 1 (mk_ndarray [3; 1] [5; 2; 5]%Z)).
  - reflexivity.
  - reflexivity.
  - vm_compute. reflexivity.
Defined.

(** C10, witness: the example directory. *)
Lemma amplitudes_channel_map_passthrough_example :
  exists b,
    load_example example_folder 1 = Ok b
    /\ amplitudes_npy example_folder = Holds (amplitudes b)
    /\ channel_map_npy example_folder = Holds (channel_map b).
Proof.
  eexists. split; [vm_compute; reflexivity |].
  eapply (amplitudes_channel_map_passthrough Z 0%Z Z.add Z.mul Z.div
            example_folder 30%Z true false false 1).
  vm_compute. reflexivity.
Defined.

(** C8, on a recording with a single spike stored as a one-by-one column:
    the spike times the loader returns have no axis at all, where a
    one-dimensional sequence of length one was expected. *)
Theorem single_spike_loses_its_axis :
  spike_times_npy single_spike_folder = Holds (mk_ndarray [1; 1] [30%Z])
  /\ exists b,
      load_example single_spike_folder 1 = Ok b
      /\ shape (spike_times b) = []
      /\ data (spike_times b) = [1%Z]
      /\ shape (spike_times b) <> [1].
Proof.
  split; [reflexivity |].
  eexists. split; [vm_compute; reflexivity |].
  split; [reflexivity |]. split; [reflexivity | discriminate].
Qed.

(** ** Decimal integers *)

Ltac eval_digit :=
  match goal with
  | |- context [digit_of ?c] =>
      let v := eval vm_compute in (digit_of c) in
      change (digit_of c) with v; cbv iota
  end.

Lemma digits_value_pos_acc (d : Decimal.uint) :
  forall acc : positive,
    digits_value (Z.pos acc) (NilEmpty.string_of_uint d)
    = Some (Z.pos (Pos.of_uint_acc d acc)).
Proof.
  induction d; intros acc;
    cbn [NilEmpty.string_of_uint digits_value Pos.of_uint_acc];
    [reflexivity | ..];
    eval_digit; rewrite <- IHd; f_equal; lia.
Qed.

Lemma digits_value_uint (d : Decimal.uint) :
  digits_value 0 (NilEmpty.string_of_uint d) = Some (Z.of_N (Pos.of_uint d)).
Proof.
  induction d; cbn [NilEmpty.string_of_uint digits_value Pos.of_uint];
    [reflexivity | ..];
    eval_digit; [exact IHd | ..];
    match goal with
    | |- context [Pos.of_uint_acc d ?k] => exact (digits_value_pos_acc d k)
    end.
Qed.

Lemma digits_of_uint (d : Decimal.uint) :
  string_forall is_digit (NilEmpty.string_of_uint d) = true.
Proof. induction d; simpl; try reflexivity; exact IHd. Qed.

(** The decimal writing of a positive number starts with a digit other
    than zero. *)
Lemma to_uint_head (p : positive) :
  exists c rest,
    NilEmpty.string_of_uint (Pos.to_uint p) = String c rest
    /\ is_digit c = true /\ Ascii.eqb c "0" = false.
Proof.
  pose proof (DecimalPos.Unsigned.to_of (Pos.to_uint p)) as Hnorm.
  rewrite DecimalPos.Unsigned.of_to in Hnorm. simpl in Hnorm.
  pose proof (DecimalPos.Unsigned.to_uint_nonzero p) as Hnz.
  destruct (Pos.to_uint p) as [| d | d | d | d | d | d | d | d | d | d] eqn:E;
    try (simpl; eexists; eexists; split; [reflexivity | split; reflexivity]).
  - exfalso. apply (DecimalPos.Unsigned.to_uint_nonnil p). exact E.
  - exfalso. rewrite unorm_D0 in Hnorm.
    assert (Hcase : d = Decimal.Nil \/ d <> Decimal.Nil)
      by (destruct d; [left; reflexivity | right; discriminate ..]).
    destruct Hcase as [-> | Hd].
    + apply Hnz. reflexivity.
    + pose proof (nb_digits_unorm d Hd) as Hle.
      rewrite <- Hnorm in Hle. simpl in Hle. lia.
Qed.

Lemma digit_not_sign (c : ascii) :
  is_digit c = true -> Ascii.eqb c "-" = false /\ Ascii.eqb c "+" = false.
Proof.
  intros Hd. split.
  - destruct (Ascii.eqb_spec c "-") as [-> |]; [discriminate | reflexivity].
  - destruct (Ascii.eqb_spec c "+") as [-> |]; [discriminate | reflexivity].
Qed.

Lemma string_of_pos (p : positive) :
  NilZero.string_of_uint (Pos.to_uint p)
  = NilEmpty.string_of_uint (Pos.to_uint p).
Proof.
  pose proof (DecimalPos.Unsigned.to_uint_nonnil p) as Hnn.
  unfold NilZero.string_of_uint. destruct (Pos.to_uint p); congruence.
Qed.

Lemma digits_value_of_pos (p : positive) :
  digits_value 0 (NilEmpty.string_of_uint (Pos.to_uint p)) = Some (Z.pos p).
Proof.
  rewrite digits_value_uint, DecimalPos.Unsigned.of_to. reflexivity.
Qed.

Lemma digit_not_underscore (c : ascii) :
  is_digit c = true -> Ascii.eqb c "_" = false.
Proof.
  intros Hd.
  destruct (Ascii.eqb_spec c "_") as [-> |]; [discriminate | reflexivity].
Qed.

(** A run of digits has no group to undo. *)
Lemma ungroup_digits (s : string) :
  string_forall is_digit s = true ->
  forall after_digit,
    after_digit = true \/ is_empty s = false ->
    ungroup after_digit s = Some s.
Proof.
  induction s as [| c s IH]; intros Hs after_digit Hb.
  - destruct Hb as [-> | Hb]; [reflexivity | discriminate].
  - simpl in Hs. apply andb_true_iff in Hs. destruct Hs as [Hc Hs].
    simpl. rewrite (digit_not_underscore c Hc), Hc.
    rewrite (IH Hs true) by (left; reflexivity). reflexivity.
Qed.

Lemma unsigned_of_str_of_pos (p : positive) :
  unsigned_of_str (NilEmpty.string_of_uint (Pos.to_uint p)) = Some (Z.pos p).
Proof.
  unfold unsigned_of_str. rewrite ungroup_digits.
  - apply digits_value_of_pos.
  - apply digits_of_uint.
  - right. destruct (to_uint_head p) as (c & rest & -> & _). reflexivity.
Qed.

(** [int(str(z)) == z]. *)
Lemma int_of_str_str_of_int (z : Z) : int_of_str (str_of_int z) = Some z.
Proof.
  unfold str_of_int. destruct z as [| p | p]; [reflexivity | |];
    simpl Z.to_int; unfold NilZero.string_of_int; rewrite string_of_pos;
    pose proof (unsigned_of_str_of_pos p) as Hv;
    destruct (to_uint_head p) as (c & rest & Hs & Hd & H0);
    rewrite Hs in *.
  - unfold int_of_str.
    destruct (digit_not_sign c Hd) as [-> ->]. exact Hv.
  - unfold int_of_str. rewrite Ascii.eqb_refl.
    rewrite Hv. reflexivity.
Qed.

(** A JSON integer written by [str] is read back. *)
Lemma int_of_json_str_of_int (z : Z) : int_of_json (str_of_int z) = Some z.
Proof.
  unfold str_of_int. destruct z as [| p | p]; [reflexivity | |];
    simpl Z.to_int; unfold NilZero.string_of_int; rewrite string_of_pos;
    pose proof (digits_value_of_pos p) as Hv;
    destruct (to_uint_head p) as (c & rest & Hs & Hd & H0);
    rewrite Hs in *.
  - unfold int_of_json.
    destruct (digit_not_sign c Hd) as [-> _]. rewrite H0. exact Hv.
  - unfold int_of_json. cbv zeta beta.
    rewrite Ascii.eqb_refl, H0, andb_false_l, Hv. reflexivity.
Qed.

(** [str(z)] is a non-empty run of digits after an optional minus sign. *)
Lemma str_of_int_chars (z : Z) :
  string_forall (fun c => is_digit c || Ascii.eqb c "-") (str_of_int z) = true
  /\ is_empty (str_of_int z) = false.
Proof.
  assert (Hweak : forall s, string_forall is_digit s = true ->
                  string_forall (fun c => is_digit c || Ascii.eqb c "-") s
                  = true).
  { induction s as [| c s IH]; simpl; [reflexivity |].
    intros H. apply andb_true_iff in H. destruct H as [-> H].
    simpl. apply IH. exact H. }
  unfold str_of_int. destruct z as [| p | p]; [split; reflexivity | |];
    simpl Z.to_int; unfold NilZero.string_of_int; rewrite string_of_pos.
  - split; [apply Hweak, digits_of_uint |].
    destruct (to_uint_head p) as (c & rest & -> & _). reflexivity.
  - split; [| reflexivity].
    simpl. apply Hweak, digits_of_uint.
Qed.

(** ** Splitting text *)

Lemma append_assoc (a b c : string) : ((a ++ b) ++ c = a ++ (b ++ c))%string.
Proof. induction a as [| x a IH]; simpl; [reflexivity | rewrite IH; reflexivity]. Qed.

Lemma string_forall_app (p : ascii -> bool) (a b : string) :
  string_forall p (a ++ b) = string_forall p a && string_forall p b.
Proof.
  induction a as [| x a IH]; simpl; [reflexivity |].
  rewrite IH, andb_assoc. reflexivity.
Qed.

Lemma string_forall_impl (p q : ascii -> bool) (s : string) :
  (forall c, p c = true -> q c = true) ->
  string_forall p s = true -> string_forall q s = true.
Proof.
  intros Hpq. induction s as [| x s IH]; simpl; [reflexivity |].
  intros H. apply andb_true_iff in H. destruct H as [Hx Hs].
  rewrite (Hpq x Hx), (IH Hs). reflexivity.
Qed.

Lemma split_at_none (sep : ascii -> bool) (s : string) :
  string_forall (fun c => negb (sep c)) s = true -> split_at sep s = [s].
Proof.
  induction s as [| x s IH]; simpl; [reflexivity |].
  intros H. apply andb_true_iff in H. destruct H as [Hx Hs].
  apply negb_true_iff in Hx. rewrite Hx, (IH Hs). reflexivity.
Qed.

Lemma split_at_app (sep : ascii -> bool) (a : string) (c : ascii)
      (b : string) :
  string_forall (fun c => negb (sep c)) a = true ->
  sep c = true ->
  split_at sep (a ++ String c b) = a :: split_at sep b.
Proof.
  intros Ha Hc. induction a as [| x a IH]; simpl.
  - rewrite Hc. reflexivity.
  - simpl in Ha. apply andb_true_iff in Ha. destruct Ha as [Hx Ha].
    apply negb_true_iff in Hx. rewrite Hx, (IH Ha). reflexivity.
Qed.

Lemma universal_newlines_app_LF (a b : string) :
  string_forall (fun c => negb (Ascii.eqb c CR)) a = true ->
  universal_newlines (a ++ String LF b)
  = (a ++ String LF (universal_newlines b))%string.
Proof.
  intros Ha. induction a as [| x a IH]; simpl.
  - reflexivity.
  - simpl in Ha. apply andb_true_iff in Ha. destruct Ha as [Hx Ha].
    apply negb_true_iff in Hx. rewrite Hx, (IH Ha). reflexivity.
Qed.

Lemma word_char_cases (c : ascii) :
  word_char c = true ->
  is_space c = false /\ Ascii.eqb "#" c = false
  /\ Ascii.eqb LF c = false /\ Ascii.eqb c CR = false.
Proof.
  unfold word_char. intros H. apply andb_true_iff in H.
  destruct H as [Hs Hh]. apply andb_true_iff in Hs.
  destruct Hs as [_ Hs]. apply negb_true_iff in Hs, Hh.
  repeat split; try assumption.
  - destruct (Ascii.eqb_spec LF c) as [<- |]; [discriminate | reflexivity].
  - destruct (Ascii.eqb_spec c CR) as [-> |]; [discriminate | reflexivity].
Qed.

Lemma is_word_inv (w : string) :
  is_word w = true ->
  is_empty w = false /\ string_forall word_char w = true.
Proof.
  unfold is_word. intros H. apply andb_true_iff in H.
  destruct H as [He Hw]. apply negb_true_iff in He. split; assumption.
Qed.

Lemma concat_cons (x : string) (xs : list string) :
  String.concat EmptyString (x :: xs)
  = (x ++ String.concat EmptyString xs)%string.
Proof.
  simpl. destruct xs as [| y ys]; [| reflexivity].
  simpl. induction x as [| c x IH]; simpl; congruence.
Qed.

Lemma blank_char_cases (c : ascii) :
  blank_char c = true ->
  is_space c = true /\ Ascii.eqb "#" c = false
  /\ Ascii.eqb LF c = false /\ Ascii.eqb c CR = false.
Proof.
  destruct c as [[] [] [] [] [] [] [] []]; intros H;
    try discriminate H; repeat split; reflexivity.
Qed.

Lemma words_after_blank (sep b : string) :
  string_forall blank_char sep = true ->
  is_word b = true ->
  filter (fun w => negb (is_empty w)) (split_at is_space (sep ++ b)) = [b].
Proof.
  intros Hsep Hb. destruct (is_word_inv b Hb) as [Heb Hwb].
  induction sep as [| c sep IH]; simpl.
  - rewrite split_at_none.
    + simpl. rewrite Heb. reflexivity.
    + eapply string_forall_impl; [| exact Hwb]. intros x Hx.
      destruct (word_char_cases x Hx) as (-> & _). reflexivity.
  - simpl in Hsep. apply andb_true_iff in Hsep. destruct Hsep as [Hc Hsep].
    destruct (blank_char_cases c Hc) as (-> & _). simpl.
    apply IH. exact Hsep.
Qed.

(** A well-formed line is read as a row of two cells, and the text goes on
    with the next line. *)
Lemma table_rows_row_text (r : table_row) (rest : string) :
  well_formed_row r = true ->
  table_rows (row_text r ++ rest) = [cell0 r; cell1 r] :: table_rows rest.
Proof.
  destruct r as [a sep b]. unfold well_formed_row, row_text. simpl.
  intros Hwf. apply andb_true_iff in Hwf. destruct Hwf as [Hwf Hb].
  apply andb_true_iff in Hwf. destruct Hwf as [Ha Hsep].
  destruct (is_word_inv a Ha) as [Hea Hwa].
  destruct (is_word_inv b Hb) as [Heb Hwb].
  unfold is_blank in Hsep. apply andb_true_iff in Hsep.
  destruct Hsep as [Hes Hbs]. apply negb_true_iff in Hes.
  assert (Hline : string_forall
                    (fun c => negb (Ascii.eqb "#" c) && negb (Ascii.eqb LF c)
                              && negb (Ascii.eqb c CR))
                    (a ++ sep ++ b) = true).
  { rewrite !string_forall_app. rewrite !andb_true_iff. repeat split.
    - eapply string_forall_impl; [| exact Hwa]. intros c Hc.
      destruct (word_char_cases c Hc) as (_ & -> & -> & ->). reflexivity.
    - eapply string_forall_impl; [| exact Hbs]. intros c Hc.
      destruct (blank_char_cases c Hc) as (_ & -> & -> & ->). reflexivity.
    - eapply string_forall_impl; [| exact Hwb]. intros c Hc.
      destruct (word_char_cases c Hc) as (_ & -> & -> & ->). reflexivity. }
  unfold table_rows, lines.
  replace ((a ++ sep ++ b ++ String LF EmptyString) ++ rest)%string
    with ((a ++ sep ++ b) ++ String LF rest)%string
    by (rewrite !append_assoc; reflexivity).
  rewrite universal_newlines_app_LF.
  2:{ eapply string_forall_impl; [| exact Hline]. intros c Hc.
      apply andb_true_iff in Hc. destruct Hc as [_ ->]. reflexivity. }
  rewrite split_at_app.
  2:{ eapply string_forall_impl; [| exact Hline]. intros c Hc.
      apply andb_true_iff in Hc. destruct Hc as [Hc _].
      apply andb_true_iff in Hc. destruct Hc as [_ ->]. reflexivity. }
  2:{ reflexivity. }
  simpl map. unfold strip_comment at 1.
  rewrite split_at_none.
  2:{ eapply string_forall_impl; [| exact Hline]. intros c Hc.
      apply andb_true_iff in Hc. destruct Hc as [Hc _].
      apply andb_true_iff in Hc. destruct Hc as [-> _]. reflexivity. }
  simpl hd. unfold words at 1.
  destruct sep as [| c sep]; [discriminate |].
  simpl in Hbs. apply andb_true_iff in Hbs. destruct Hbs as [Hc Hbs].
  destruct (blank_char_cases c Hc) as (Hsp & _).
  change (a ++ String c sep ++ b)%string with (a ++ String c (sep ++ b))%string.
  rewrite split_at_app.
  2:{ eapply string_forall_impl; [| exact Hwa]. intros x Hx.
      destruct (word_char_cases x Hx) as (-> & _). reflexivity. }
  2:{ exact Hsp. }
  simpl filter. rewrite Hea. simpl negb. cbv iota.
  rewrite (words_after_blank sep b Hbs Hb). reflexivity.
Qed.

Lemma table_rows_rows (rs : list table_row) :
  Forall (fun r => well_formed_row r = true) rs ->
  table_rows (String.concat EmptyString (map row_text rs))
  = map (fun r => [cell0 r; cell1 r]) rs.
Proof.
  induction 1 as [| r rs Hr _ IH]; [reflexivity |].
  cbn [map]. rewrite concat_cons.
  rewrite table_rows_row_text by exact Hr. rewrite IH. reflexivity.
Qed.

(** ** The quality table, written and read back *)

Lemma int_char_is_word_char (c : ascii) :
  is_digit c || Ascii.eqb c "-" = true -> word_char c = true.
Proof.
  destruct c as [[] [] [] [] [] [] [] []]; intros H;
    try reflexivity; discriminate H.
Qed.

Lemma str_of_int_is_word (z : Z) : is_word (str_of_int z) = true.
Proof.
  destruct (str_of_int_chars z) as [Hc He].
  unfold is_word. rewrite He. simpl.
  eapply string_forall_impl; [| exact Hc].
  exact int_char_is_word_char.
Qed.

Lemma quality_label_is_word (q : Z) : is_word (quality_label q) = true.
Proof.
  unfold quality_label.
  destruct (q =? 0)%Z; [reflexivity |].
  destruct (q =? 1)%Z; reflexivity.
Qed.

Lemma skipn_nth_error {A : Type} (l : list A) :
  forall idx, idx < length l ->
  exists x, nth_error l idx = Some x /\ skipn idx l = x :: skipn (S idx) l.
Proof.
  induction l as [| y l IH]; intros idx Hidx; simpl in Hidx; [lia |].
  destruct idx as [| idx].
  - exists y. split; reflexivity.
  - destruct (IH idx) as (x & Hx & Hs); [lia |].
    exists x. split; [exact Hx |]. simpl. exact Hs.
Qed.

Lemma label_loop_spec (IDs quality : list Z) :
  forall idx cluster_index cluster_quality,
    idx + length IDs <= length quality ->
    label_loop idx IDs quality cluster_index cluster_quality
    = Ok (cluster_index ++ IDs,
          cluster_quality
          ++ map quality_label (firstn (length IDs) (skipn idx quality)))%list.
Proof.
  induction IDs as [| ID IDs IH]; intros idx ci cq Hlen; simpl.
  - rewrite !List.app_nil_r. reflexivity.
  - simpl in Hlen.
    destruct (skipn_nth_error quality idx) as (q & Hq & Hs); [lia |].
    rewrite Hq, IH by lia. rewrite Hs. simpl.
    rewrite <- !List.app_assoc. reflexivity.
Qed.

(** The identifiers [str] writes are read back if they fit [int64], and
    make the conversion overflow if one does not. *)
Lemma astype_int_str_of_int (ids : list Z) :
  astype_int (map str_of_int ids)
  = if forallb in_int64 ids then Ok ids else Raise OverflowError.
Proof.
  unfold astype_int. induction ids as [| z ids IH]; [reflexivity |].
  cbn [map mapM forallb]. unfold int64_of_str at 1.
  rewrite int_of_str_str_of_int.
  destruct (in_int64 z); [| reflexivity].
  cbn [bind andb]. rewrite IH.
  destruct (forallb in_int64 ids); reflexivity.
Qed.

Lemma map_nth_tail {A B : Type} (f : A -> B) (d h : A) (body : list A) :
  map (fun i => f (nth i (h :: body) d)) (seq 1 (length body)) = map f body.
Proof.
  rewrite <- seq_shift, map_map. simpl.
  induction body as [| x body IH]; simpl; [reflexivity |].
  rewrite <- seq_shift, map_map. simpl. rewrite IH. reflexivity.
Qed.

Lemma squeeze_two_axes {A : Type} (r c : nat) (d : list A) :
  r <> 1 -> c <> 1 ->
  np_squeeze (mk_ndarray [r; c] d) = mk_ndarray [r; c] d.
Proof.
  intros Hr Hc. unfold np_squeeze. simpl.
  apply Nat.eqb_neq in Hr, Hc. rewrite Hr, Hc. reflexivity.
Qed.

Lemma rows_from_1_column_eq (r c : nat) (d : list string) (k : nat) :
  k < c ->
  rows_from_1_column (mk_ndarray [r; c] d) k
  = Ok (map (fun i => nth (i * c + k) d EmptyString) (seq 1 (r - 1))).
Proof.
  intros Hk. unfold rows_from_1_column. simpl.
  apply Nat.ltb_lt in Hk. rewrite Hk. reflexivity.
Qed.

(** The table [genfromtxt] returns for a first line and at least one more
    line, all well formed: nothing is squeezed, and the columns are those of
    the lines after the first. *)
Lemma read_table_of_rows (first : table_row) (body : list table_row) :
  body <> [] ->
  Forall (fun r => well_formed_row r = true) (first :: body) ->
  exists info,
    genfromtxt (Holds (String.concat EmptyString
                         (map row_text (first :: body))))
    = Ok info
    /\ rows_from_1_column info 0 = Ok (map cell0 body)
    /\ rows_from_1_column info 1 = Ok (map cell1 body).
Proof.
  intros Hne Hwf.
  pose proof (table_rows_rows (first :: body) Hwf) as Hrows.
  unfold genfromtxt. rewrite Hrows. cbn [map]. cbv beta iota zeta.
  set (rows := [cell0 first; cell1 first]
               :: map (fun r => [cell0 r; cell1 r]) body).
  change (length [cell0 first; cell1 first]) with 2.
  assert (Hall : forallb (fun r => length r =? 2) rows = true).
  { apply forallb_forall. intros r Hr. unfold rows in Hr.
    destruct Hr as [<- | Hr]; [reflexivity |].
    apply in_map_iff in Hr. destruct Hr as (ab & <- & _). reflexivity. }
  assert (Hlen : length rows = S (length body))
    by (unfold rows; simpl; rewrite length_map; reflexivity).
  assert (Hbody : length body <> 0) by (destruct body; simpl; congruence).
  rewrite Hall, Hlen, squeeze_two_axes by lia.
  eexists. split; [reflexivity |].
  rewrite !rows_from_1_column_eq by lia.
  replace (S (length body) - 1) with (length body) by lia.
  assert (Hcol : forall k (g : table_row -> string),
             k < 2 ->
             (forall r, nth k [cell0 r; cell1 r] EmptyString = g r) ->
             map (fun i => nth (i * 2 + k) (concat rows) EmptyString)
                 (seq 1 (length body))
             = map g body).
  { intros k g Hk Hg.
    rewrite <- (map_nth_tail g first first body).
    apply map_ext_in. intros i Hi. apply in_seq in Hi.
    unfold rows.
    change ([cell0 first; cell1 first]
            :: map (fun r => [cell0 r; cell1 r]) body)
      with (map (fun r : table_row => [cell0 r; cell1 r]) (first :: body)).
    rewrite <- flat_map_concat_map.
    rewrite (nth_flat_map_block _ 2 EmptyString first);
      [apply Hg | intros; reflexivity | simpl; lia | lia]. }
  rewrite (Hcol 0 cell0), (Hcol 1 cell1); try lia; try reflexivity.
  split; reflexivity.
Qed.

Lemma quality_label_cases (q : Z) :
  quality_label q
  = match q with
    | 0%Z => "unsorted"
    | 1%Z => "good"
    | _ => "noise"
    end.
Proof. destruct q as [| [p | p |] | p]; reflexivity. Qed.

Lemma map_fst_combine_le {A B C : Type} (f : A -> C) (a : list A) :
  forall b : list B,
    length a <= length b ->
    map (fun row => f (fst row)) (combine a b) = map f a.
Proof.
  induction a as [| x a IH]; intros [| y b] Hlen; simpl in *;
    try reflexivity; try lia.
  rewrite IH by lia. reflexivity.
Qed.

Lemma map_snd_combine_eq {A B : Type} (a : list A) :
  forall b : list B,
    length a = length b -> map snd (combine a b) = b.
Proof.
  induction a as [| x a IH]; intros [| y b] Hlen; simpl in *;
    try reflexivity; try discriminate.
  rewrite IH by lia. reflexivity.
Qed.

(** The file the writer produces, and what the reader makes of it. *)
Lemma read_written_table (IDs quality : list Z) :
  IDs <> [] ->
  length IDs <= length quality ->
  exists text,
    write_cluster_group_tsv IDs quality = Ok text
    /\ read_cluster_group_tsv (Holds text)
       = if forallb in_int64 IDs
         then Ok (IDs, map quality_label (firstn (length IDs) quality))
         else Raise OverflowError.
Proof.
  intros Hne Hlen.
  unfold write_cluster_group_tsv.
  rewrite label_loop_spec by (simpl; lia). simpl.
  set (labels := map quality_label (firstn (length IDs) quality)).
  assert (Hlabels : length IDs = length labels).
  { unfold labels. rewrite length_map, length_firstn. lia. }
  eexists. split; [reflexivity |].
  set (body := map (fun row : Z * string =>
                      tab_row (str_of_int (fst row), snd row))
                   (combine IDs labels)).
  assert (Htext : to_csv IDs labels
                  = String.concat EmptyString
                      (map row_text
                           (tab_row ("cluster_id", "group") :: body))).
  { unfold to_csv, body. rewrite map_cons, map_map. reflexivity. }
  rewrite Htext.
  destruct (read_table_of_rows (tab_row ("cluster_id", "group")) body)
    as (info & Hinfo & Hc0 & Hc1).
  - unfold body. destruct IDs as [| i IDs]; [congruence |].
    destruct labels; [discriminate Hlabels | discriminate].
  - constructor; [reflexivity |].
    apply Forall_forall. intros r Hr. unfold body in Hr.
    apply in_map_iff in Hr. destruct Hr as ([z l] & <- & Hin).
    unfold well_formed_row, tab_row. simpl.
    rewrite str_of_int_is_word. simpl.
    apply in_combine_r in Hin. unfold labels in Hin.
    apply in_map_iff in Hin. destruct Hin as (q & <- & _).
    apply quality_label_is_word.
  - unfold read_cluster_group_tsv. rewrite Hinfo. cbn [bind].
    rewrite Hc0, Hc1. cbn [bind].
    assert (Hfst : map cell0 body = map str_of_int IDs).
    { unfold body. rewrite map_map. simpl.
      apply (map_fst_combine_le str_of_int). lia. }
    assert (Hsnd : map cell1 body = labels).
    { unfold body. rewrite map_map. simpl.
      rewrite <- (map_snd_combine_eq IDs labels Hlabels) at 2.
      reflexivity. }
    rewrite Hfst, Hsnd, astype_int_str_of_int.
    destruct (forallb in_int64 IDs); reflexivity.
Qed.

(** C5.  For at least one cluster, identifiers that fit the dtype [int64]
    and a quality code for every cluster, the file
    [write_cluster_group_tsv] writes is read back by
    [read_cluster_group_tsv] as the same identifiers, in order, with the
    label of every code: 0 gives "unsorted", 1 gives "good", any other code
    gives "noise". *)
Theorem quality_table_round_trip (IDs quality : list Z) :
  IDs <> [] ->
  forallb in_int64 IDs = true ->
  length IDs <= length quality ->
  exists text,
    write_cluster_group_tsv IDs quality = Ok text
    /\ read_cluster_group_tsv (Holds text)
       = Ok (IDs,
             map (fun q => match q with
                           | 0%Z => "unsorted"
                           | 1%Z => "good"
                           | _ => "noise"
                           end)
                 (firstn (length IDs) quality)).
Proof.
  intros Hne Hfit Hlen.
  destruct (read_written_table IDs quality Hne Hlen) as (text & Hw & Hr).
  exists text. split; [exact Hw |].
  rewrite Hr, Hfit. f_equal. f_equal.
  apply map_ext. exact quality_label_cases.
Qed.

(** C5, witness: the identifiers 0, 1, 2 with the codes 0, 1, 2. *)
Lemma quality_table_round_trip_example :
  exists text,
    write_cluster_group_tsv [0; 1; 2]%Z [0; 1; 2]%Z = Ok text
    /\ read_cluster_group_tsv (Holds text)
       = Ok ([0; 1; 2]%Z, ["unsorted"; "good"; "noise"]).
Proof.
  apply (quality_table_round_trip [0; 1; 2]%Z [0; 1; 2]%Z).
  - discriminate.
  - reflexivity.
  - simpl. lia.
Defined.

(** Beside C5: an identifier beyond [int64] is written, and the file is
    then refused by the reader. *)
Remark identifier_beyond_int64_is_not_read_back :
  exists text,
    write_cluster_group_tsv [(2 ^ 63)%Z] [1%Z] = Ok text
    /\ text = ("cluster_id" ++ String TAB "group" ++ String LF
               ("9223372036854775808" ++ String TAB "good"
                ++ String LF EmptyString))%string
    /\ read_cluster_group_tsv (Holds text) = Raise OverflowError.
Proof.
  eexists. split; [vm_compute; reflexivity |].
  split; [reflexivity | vm_compute; reflexivity].
Qed.

(** ** Reading a quality table *)

Lemma astype_int_app (a b : list string) :
  astype_int (a ++ b)
  = (xs <- astype_int a ;; ys <- astype_int b ;; Ok (xs ++ ys)%list).
Proof.
  unfold astype_int. induction a as [| x a IH]; simpl.
  - destruct (mapM int64_of_str b); reflexivity.
  - destruct (int64_of_str x) as [z | e]; [| reflexivity]. simpl.
    rewrite IH. destruct (mapM int64_of_str a) as [xs | e]; [| reflexivity].
    simpl. destruct (mapM int64_of_str b); reflexivity.
Qed.

Lemma astype_int_coercible (l : list string) (ids : list Z) :
  map int_of_str l = map Some ids ->
  forallb in_int64 ids = true ->
  astype_int l = Ok ids.
Proof.
  unfold astype_int. revert ids.
  induction l as [| x l IH]; intros [| z ids] H Hfit; simpl in *;
    try discriminate; [reflexivity |].
  injection H as Hx Hl. apply andb_true_iff in Hfit. destruct Hfit as [Hz Hfit].
  unfold int64_of_str at 1. rewrite Hx, Hz. simpl.
  rewrite (IH ids Hl Hfit). reflexivity.
Qed.

(** The conversion stops at the first word it cannot convert. *)
Lemma astype_int_first_failure (good : list string) (bad : string)
      (more : list string) (ids : list Z) (e : exn) :
  map int_of_str good = map Some ids ->
  forallb in_int64 ids = true ->
  int64_of_str bad = Raise e ->
  astype_int (good ++ bad :: more) = Raise e.
Proof.
  intros Hgood Hfit Hbad.
  rewrite astype_int_app, (astype_int_coercible good ids Hgood Hfit).
  cbn [bind]. unfold astype_int. cbn [mapM]. rewrite Hbad. reflexivity.
Qed.




(** ** Scanning the text [json_dump] writes *)

Lemma lex_run_cons (st : option (list token * lex_mode)) (c : ascii)
      (s : string) :
  lex_run st (String c s) = lex_run (lex_step st c) s.
Proof. reflexivity. Qed.

Lemma lex_spaces (n : nat) (toks : list token) (rest : string) :
  lex_run (Some (toks, LIdle)) (spaces n ++ rest)
  = lex_run (Some (toks, LIdle)) rest.
Proof. induction n as [| n IH]; simpl; [reflexivity | exact IH]. Qed.

Lemma lex_newline_indent (level : nat) (toks : list token) (rest : string) :
  lex_run (Some (toks, LIdle)) (newline_indent level ++ rest)
  = lex_run (Some (toks, LIdle)) rest.
Proof.
  unfold newline_indent.
  change (String LF (spaces (4 * level)) ++ rest)%string
    with (String LF (spaces (4 * level) ++ rest)).
  rewrite lex_run_cons. apply lex_spaces.
Qed.

Lemma plain_char_cases (c : ascii) :
  (32 <=? nat_of_ascii c) && (nat_of_ascii c <=? 126)
  && negb (Ascii.eqb c QUOTE) && negb (Ascii.eqb c "\") = true ->
  Ascii.eqb c QUOTE = false /\ Ascii.eqb c "\" = false
  /\ (nat_of_ascii c <? 32) = false.
Proof.
  intros H. apply andb_true_iff in H. destruct H as [H Hb].
  apply andb_true_iff in H. destruct H as [H Hq].
  apply andb_true_iff in H. destruct H as [Hlo _].
  apply negb_true_iff in Hq, Hb. apply Nat.leb_le in Hlo.
  repeat split; try assumption. apply Nat.ltb_ge. exact Hlo.
Qed.

Lemma lex_string_chars (k : string) :
  plain_key k = true ->
  forall acc toks rest,
    lex_run (Some (toks, LString acc)) (k ++ rest)
    = lex_run (Some (toks, LString (acc ++ k))) rest.
Proof.
  unfold plain_key. induction k as [| c k IH]; intros Hk acc toks rest.
  - simpl. replace (acc ++ "")%string with acc; [reflexivity |].
    clear. induction acc as [| a acc IH]; simpl; congruence.
  - cbn [string_forall] in Hk. apply andb_true_iff in Hk.
    destruct Hk as [Hc Hk].
    destruct (plain_char_cases c Hc) as (Hq & Hb & Hctl).
    change (String c k ++ rest)%string with (String c (k ++ rest)).
    rewrite lex_run_cons. cbn [lex_step]. rewrite Hq, Hb, Hctl.
    rewrite (IH Hk). f_equal. f_equal. f_equal.
    rewrite append_assoc. reflexivity.
Qed.

Lemma lex_key (k : string) (toks : list token) (rest : string) :
  plain_key k = true ->
  lex_run (Some (toks, LIdle)) (String QUOTE (k ++ String QUOTE rest))
  = lex_run (Some ((toks ++ [TString k])%list, LIdle)) rest.
Proof.
  intros Hk. rewrite lex_run_cons.
  change (lex_step (Some (toks, LIdle)) QUOTE)
    with (Some (toks, LString EmptyString)).
  rewrite (lex_string_chars k Hk). simpl append.
  rewrite lex_run_cons. reflexivity.
Qed.

Lemma lex_literal_start (c : ascii) (toks : list token) :
  is_literal_char c = true ->
  lex_idle toks c = Some (toks, LLiteral (String c EmptyString)).
Proof.
  destruct c as [[] [] [] [] [] [] [] []]; intros H;
    try discriminate H; reflexivity.
Qed.

Lemma lex_literal_chars (s : string) :
  string_forall is_literal_char s = true ->
  forall acc toks rest,
    lex_run (Some (toks, LLiteral acc)) (s ++ rest)
    = lex_run (Some (toks, LLiteral (acc ++ s))) rest.
Proof.
  induction s as [| c s IH]; intros Hs acc toks rest.
  - simpl. replace (acc ++ "")%string with acc; [reflexivity |].
    clear. induction acc as [| a acc IH]; simpl; congruence.
  - simpl in Hs. apply andb_true_iff in Hs. destruct Hs as [Hc Hs].
    change (String c s ++ rest)%string with (String c (s ++ rest)).
    rewrite lex_run_cons. simpl lex_step. rewrite Hc.
    rewrite (IH Hs). f_equal. f_equal. f_equal.
    rewrite append_assoc. reflexivity.
Qed.

(** A literal followed by a character that ends it. *)
Lemma lex_literal (lit : string) (c : ascii) (toks : list token)
      (rest : string) :
  string_forall is_literal_char lit = true ->
  is_empty lit = false ->
  is_literal_char c = false ->
  lex_run (Some (toks, LIdle)) (lit ++ String c rest)
  = lex_run (lex_idle (toks ++ [TLiteral lit])%list c) rest.
Proof.
  intros Hlit Hne Hc. destruct lit as [| a lit]; [discriminate |].
  simpl in Hlit. apply andb_true_iff in Hlit. destruct Hlit as [Ha Hlit].
  change (String a lit ++ String c rest)%string
    with (String a (lit ++ String c rest)).
  rewrite lex_run_cons.
  change (lex_step (Some (toks, LIdle)) a) with (lex_idle toks a).
  rewrite (lex_literal_start a toks Ha).
  rewrite (lex_literal_chars lit Hlit).
  rewrite lex_run_cons. simpl lex_step. rewrite Hc. reflexivity.
Qed.

(** ** The probe document, written and read back *)

Section ProbeFacts.

Variable F : Type.
Variable float_repr : F -> string.
Variable float_of_literal : string -> option F.
Variable float_of_int : Z -> F.
Hypothesis Hexact : float_format_exact F float_repr float_of_literal.

Local Abbreviation pynum := (pynum F).
Local Abbreviation jvalue := (jvalue F).
Local Abbreviation encode_num := (encode_num F float_repr).
Local Abbreviation encode_value := (encode_value F float_repr).
Local Abbreviation encode_member := (encode_member F float_repr).
Local Abbreviation json_dump := (json_dump F float_repr).
Local Abbreviation decode_number := (decode_number F float_of_literal).
Local Abbreviation parse_step := (parse_step F float_of_literal).
Local Abbreviation json_load := (json_load F float_of_literal).
Local Abbreviation tokens_of_items := (tokens_of_items F float_repr).
Local Abbreviation tokens_of_value := (tokens_of_value F float_repr).
Local Abbreviation tokens_of_member := (tokens_of_member F float_repr).
Local Abbreviation tokens_of_members := (tokens_of_members F float_repr).
Local Abbreviation tokens_of_document := (tokens_of_document F float_repr).

Lemma int_char_is_literal_char (c : ascii) :
  is_digit c || Ascii.eqb c "-" = true -> is_literal_char c = true.
Proof.
  destruct c as [[] [] [] [] [] [] [] []]; intros H;
    try reflexivity; discriminate H.
Qed.

(** Every number is written as a literal that is read back as itself. *)
Lemma encode_num_literal (n : pynum) :
  string_forall is_literal_char (encode_num n) = true
  /\ is_empty (encode_num n) = false
  /\ decode_number (encode_num n) = Some n.
Proof.
  destruct n as [z | f]; simpl.
  - destruct (str_of_int_chars z) as [Hc He].
    split; [| split; [exact He |]].
    + eapply string_forall_impl; [| exact Hc].
      exact int_char_is_literal_char.
    + unfold decode_number.
      rewrite int_of_json_str_of_int. reflexivity.
  - destruct (Hexact f) as (Hc & He & Hi & Hf).
    split; [exact Hc |]. split; [exact He |].
    unfold decode_number.
    rewrite Hi, Hf. reflexivity.
Qed.

Lemma lex_num (n : pynum) (c : ascii) (toks : list token) (rest : string) :
  is_literal_char c = false ->
  lex_run (Some (toks, LIdle)) (encode_num n ++ String c rest)
  = lex_run (lex_idle (toks ++ [TLiteral (encode_num n)])%list c) rest.
Proof.
  intros Hc. destruct (encode_num_literal n) as (Hl & He & _).
  apply lex_literal; assumption.
Qed.

(** The items of an array after its opening bracket, up to the line of the
    closing bracket. *)
Lemma lex_items (level level' : nat) (xs : list pynum) :
  forall x toks rest,
    lex_run (Some (toks, LIdle))
            (encode_num x
             ++ String.concat EmptyString
                  (map (fun y => "," ++ newline_indent level ++ encode_num y)
                       xs)
             ++ newline_indent level' ++ rest)
    = lex_run (Some ((toks ++ TLiteral (encode_num x) :: tokens_of_items xs)%list,
                     LIdle))
              rest.
Proof.
  induction xs as [| y xs IH]; intros x toks rest.
  - cbn [map String.concat].
    change (EmptyString ++ newline_indent level' ++ rest)%string
      with (String LF (spaces (4 * level') ++ rest)).
    rewrite lex_num by reflexivity.
    change (lex_idle (toks ++ [TLiteral (encode_num x)])%list LF)
      with (Some ((toks ++ [TLiteral (encode_num x)])%list, LIdle)).
    apply lex_spaces.
  - cbn [map]. rewrite concat_cons.
    rewrite !append_assoc.
    change ("," ++ newline_indent level
            ++ encode_num y
            ++ String.concat EmptyString
                 (map (fun y0 => "," ++ newline_indent level ++ encode_num y0)
                      xs)
            ++ newline_indent level' ++ rest)%string
      with (String ","
              (newline_indent level
               ++ encode_num y
               ++ String.concat EmptyString
                    (map (fun y0 => "," ++ newline_indent level
                                    ++ encode_num y0) xs)
               ++ newline_indent level' ++ rest)).
    rewrite lex_num by reflexivity.
    change (lex_idle (toks ++ [TLiteral (encode_num x)])%list ",")
      with (Some (((toks ++ [TLiteral (encode_num x)]) ++ [TComma])%list,
                  LIdle)).
    rewrite lex_newline_indent, IH.
    f_equal. f_equal. f_equal.
    rewrite <- !List.app_assoc. reflexivity.
Qed.

Lemma append_single (c : ascii) (s : string) :
  (String c EmptyString ++ s)%string = String c s.
Proof. reflexivity. Qed.

(** A value followed by a character that is not part of a literal. *)
Lemma lex_value (level : nat) (v : jvalue) (c : ascii) (toks : list token)
      (rest : string) :
  is_literal_char c = false ->
  lex_run (Some (toks, LIdle)) (encode_value level v ++ String c rest)
  = lex_run (lex_idle (toks ++ tokens_of_value v)%list c) rest.
Proof.
  intros Hc. destruct v as [n | [| x xs]].
  - apply lex_num. exact Hc.
  - change (encode_value level (JArray []) ++ String c rest)%string
      with (String "[" (String "]" (String c rest))).
    rewrite !lex_run_cons.
    change (lex_step (lex_step (Some (toks, LIdle)) "[") "]")
      with (Some (((toks ++ [TLBracket]) ++ [TRBracket])%list, LIdle)).
    rewrite <- List.app_assoc. reflexivity.
  - change (encode_value level (JArray (x :: xs)))
      with ("[" ++ newline_indent (S level) ++ encode_num x
            ++ String.concat EmptyString
                 (map (fun y => "," ++ newline_indent (S level)
                                ++ encode_num y) xs)
            ++ newline_indent level ++ "]")%string.
    rewrite !append_assoc, !append_single.
    rewrite lex_run_cons.
    change (lex_step (Some (toks, LIdle)) "[")
      with (Some ((toks ++ [TLBracket])%list, LIdle)).
    rewrite lex_newline_indent, lex_items, !lex_run_cons.
    change (lex_step
              (Some (((toks ++ [TLBracket])
                      ++ TLiteral (encode_num x) :: tokens_of_items xs)%list,
                     LIdle)) "]")
      with (Some ((((toks ++ [TLBracket])
                    ++ TLiteral (encode_num x) :: tokens_of_items xs)
                   ++ [TRBracket])%list, LIdle)).
    change (tokens_of_value (JArray (x :: xs)))
      with (TLBracket :: TLiteral (encode_num x) :: tokens_of_items xs
            ++ [TRBracket])%list.
    simpl lex_step. f_equal. f_equal.
    rewrite <- !List.app_assoc. reflexivity.
Qed.

Lemma lex_member (level : nat) (k : string) (v : jvalue) (c : ascii)
      (toks : list token) (rest : string) :
  plain_key k = true ->
  is_literal_char c = false ->
  lex_run (Some (toks, LIdle)) (encode_member level (k, v) ++ String c rest)
  = lex_run (lex_idle (toks ++ tokens_of_member (k, v))%list c) rest.
Proof.
  intros Hk Hc.
  change (encode_member level (k, v))
    with (String QUOTE k ++ String QUOTE (": " ++ encode_value level v))%string.
  rewrite append_assoc.
  change (String QUOTE k
          ++ String QUOTE (": " ++ encode_value level v) ++ String c rest)%string
    with (String QUOTE
            (k ++ String QUOTE
                    (String ":"
                       (String " " (encode_value level v ++ String c rest))))).
  rewrite (lex_key k toks _ Hk), !lex_run_cons.
  change (lex_step (lex_step (Some ((toks ++ [TString k])%list, LIdle)) ":")
                   " ")
    with (Some (((toks ++ [TString k]) ++ [TColon])%list, LIdle)).
  rewrite (lex_value level v c _ rest Hc).
  change (tokens_of_member (k, v))
    with (TString k :: TColon :: tokens_of_value v).
  f_equal. f_equal.
  rewrite <- !List.app_assoc. reflexivity.
Qed.

(** The members of an object after its opening brace, up to the line of
    the closing brace. *)
Lemma lex_members (ms : list (string * jvalue)) :
  Forall (fun kv => plain_key (fst kv) = true) ms ->
  forall m toks rest,
    plain_key (fst m) = true ->
    lex_run (Some (toks, LIdle))
            (encode_member 1 m
             ++ String.concat EmptyString
                  (map (fun m' => "," ++ newline_indent 1 ++ encode_member 1 m')
                       ms)
             ++ newline_indent 0 ++ rest)
    = lex_run (Some ((toks ++ tokens_of_member m ++ tokens_of_members ms)%list,
                     LIdle))
              rest.
Proof.
  induction 1 as [| m' ms Hm' _ IH]; intros [k v] toks rest Hk; simpl in Hk.
  - cbn [map String.concat].
    change (EmptyString ++ newline_indent 0 ++ rest)%string
      with (String LF (spaces (4 * 0) ++ rest)).
    rewrite lex_member by (assumption || reflexivity).
    change (lex_idle (toks ++ tokens_of_member (k, v))%list LF)
      with (Some ((toks ++ tokens_of_member (k, v))%list, LIdle)).
    rewrite lex_spaces. simpl tokens_of_members.
    rewrite List.app_nil_r. reflexivity.
  - cbn [map]. rewrite concat_cons, !append_assoc, !append_single.
    rewrite lex_member by (assumption || reflexivity).
    change (lex_idle (toks ++ tokens_of_member (k, v))%list ",")
      with (Some (((toks ++ tokens_of_member (k, v)) ++ [TComma])%list,
                  LIdle)).
    rewrite lex_newline_indent.
    destruct m' as [k' v']. rewrite IH by exact Hm'.
    f_equal. f_equal. f_equal.
    change (tokens_of_members ((k', v') :: ms))
      with (TComma :: tokens_of_member (k', v') ++ tokens_of_members ms)%list.
    rewrite <- !List.app_assoc. reflexivity.
Qed.

Lemma lex_json_dump (doc : list (string * jvalue)) :
  Forall (fun kv => plain_key (fst kv) = true) doc ->
  lex (json_dump doc) = Some (tokens_of_document doc).
Proof.
  intros Hkeys. unfold lex. destruct doc as [| m ms]; [reflexivity |].
  inversion Hkeys as [| ? ? Hm Hms]; subst.
  change (json_dump (m :: ms))
    with ("{" ++ newline_indent 1 ++ encode_member 1 m
          ++ String.concat EmptyString
               (map (fun m' => "," ++ newline_indent 1 ++ encode_member 1 m')
                    ms)
          ++ newline_indent 0 ++ "}")%string.
  rewrite append_single, lex_run_cons.
  change (lex_step (Some ([], LIdle)) "{") with (Some ([TLBrace], LIdle)).
  rewrite lex_newline_indent, (lex_members ms Hms m _ _ Hm).
  change (lex_run
            (Some (([TLBrace] ++ tokens_of_member m ++ tokens_of_members ms)%list,
                   LIdle)) "}")
    with (Some ((([TLBrace] ++ tokens_of_member m ++ tokens_of_members ms)
                 ++ [TRBrace])%list, LIdle)).
  cbv iota. f_equal. simpl. rewrite <- !List.app_assoc. reflexivity.
Qed.

Lemma parse_literal (n : pynum) :
  decode_number (encode_num n) = Some n.
Proof. apply encode_num_literal. Qed.

Lemma parse_items (xs : list pynum) :
  forall doc k acc rest,
    fold_left parse_step (tokens_of_items xs ++ rest)%list
              (PCommaOrCloseArray F doc k acc)
    = fold_left parse_step rest (PCommaOrCloseArray F doc k (acc ++ xs)%list).
Proof.
  induction xs as [| y xs IH]; intros doc k acc rest.
  - simpl. rewrite List.app_nil_r. reflexivity.
  - change (tokens_of_items (y :: xs) ++ rest)%list
      with (TComma :: TLiteral (encode_num y)
            :: (tokens_of_items xs ++ rest))%list.
    cbn [fold_left].
    change (parse_step (parse_step (PCommaOrCloseArray F doc k acc) TComma)
                       (TLiteral (encode_num y)))
      with (match decode_number (encode_num y) with
            | Some n => PCommaOrCloseArray F doc k (acc ++ [n])%list
            | None => PError F
            end).
    rewrite parse_literal, IH, <- List.app_assoc. reflexivity.
Qed.

Lemma parse_value (v : jvalue) :
  forall doc k rest,
    fold_left parse_step (tokens_of_value v ++ rest)%list (PValue F doc k)
    = fold_left parse_step rest
                (PCommaOrCloseObject F (doc ++ [(k, v)])%list).
Proof.
  intros doc k rest. destruct v as [n | [| x xs]].
  - change (tokens_of_value (JNumber n) ++ rest)%list
      with (TLiteral (encode_num n) :: rest).
    cbn [fold_left].
    change (parse_step (PValue F doc k) (TLiteral (encode_num n)))
      with (match decode_number (encode_num n) with
            | Some n' => PCommaOrCloseObject F (doc ++ [(k, JNumber n')])%list
            | None => PError F
            end).
    rewrite parse_literal. reflexivity.
  - reflexivity.
  - change (tokens_of_value (JArray (x :: xs)) ++ rest)%list
      with (TLBracket :: TLiteral (encode_num x)
            :: ((tokens_of_items xs ++ [TRBracket]) ++ rest))%list.
    rewrite <- List.app_assoc. cbn [fold_left].
    change (parse_step (parse_step (PValue F doc k) TLBracket)
                       (TLiteral (encode_num x)))
      with (match decode_number (encode_num x) with
            | Some n => PCommaOrCloseArray F doc k [n]
            | None => PError F
            end).
    rewrite parse_literal, parse_items. reflexivity.
Qed.

Lemma parse_members (ms : list (string * jvalue)) :
  forall doc rest,
    fold_left parse_step (tokens_of_members ms ++ rest)%list
              (PCommaOrCloseObject F doc)
    = fold_left parse_step rest (PCommaOrCloseObject F (doc ++ ms)%list).
Proof.
  induction ms as [| [k v] ms IH]; intros doc rest.
  - simpl. rewrite List.app_nil_r. reflexivity.
  - change (tokens_of_members ((k, v) :: ms) ++ rest)%list
      with (TComma :: TString k :: TColon
            :: ((tokens_of_value v ++ tokens_of_members ms) ++ rest))%list.
    cbn [fold_left].
    change (parse_step
              (parse_step (parse_step (PCommaOrCloseObject F doc) TComma)
                          (TString k)) TColon)
      with (PValue F doc k).
    rewrite <- List.app_assoc, parse_value, IH, <- List.app_assoc.
    reflexivity.
Qed.

Lemma parse_document (doc : list (string * jvalue)) :
  fold_left parse_step (tokens_of_document doc) (PStart F) = PDone F doc.
Proof.
  destruct doc as [| [k v] ms]; [reflexivity |].
  change (tokens_of_document ((k, v) :: ms))
    with (TLBrace :: TString k :: TColon
          :: (tokens_of_value v ++ tokens_of_members ms ++ [TRBrace]))%list.
  cbn [fold_left].
  change (parse_step (parse_step (parse_step (PStart F) TLBrace) (TString k))
                     TColon)
    with (PValue F [] k).
  rewrite parse_value, parse_members. reflexivity.
Qed.

(** What [json.dump] writes for a document with plain keys, [json.load]
    reads back as the same document. *)
Lemma json_load_json_dump (doc : list (string * jvalue)) :
  Forall (fun kv => plain_key (fst kv) = true) doc ->
  json_load (json_dump doc) = Ok doc.
Proof.
  intros Hkeys. unfold json_load.
  rewrite (lex_json_dump doc Hkeys), parse_document. reflexivity.
Qed.

(** A list of integers that fit [int64] is an [int64] array, a list of
    floats a [float64] array. *)
Lemma fold_promote_int64 (l : list Z) :
  forallb in_int64 l = true ->
  fold_left (fun d y => promote d (scalar_dtype F y)) (map PyInt l) Int64
  = Int64.
Proof.
  induction l as [| z l IH]; intros Hl; [reflexivity |].
  cbn [forallb] in Hl. apply andb_true_iff in Hl. destruct Hl as [Hz Hl].
  cbn [map fold_left scalar_dtype]. rewrite Hz. exact (IH Hl).
Qed.

Lemma fold_promote_float64 (l : list F) :
  fold_left (fun d y => promote d (scalar_dtype F y)) (map PyFloat l) Float64
  = Float64.
Proof. induction l as [| f l IH]; [reflexivity | exact IH]. Qed.

(** What [np.array] makes of the list of a vector: the vector as an array
    of the widest dtype of its kind, but for the empty vector of integers,
    whose list is read as an empty array of dtype [float64]. *)
Lemma np_array_tolist (v : vector F) :
  fits_int64 F v = true ->
  np_array F float_of_int (JArray (tolist F v))
  = match v with
    | IntVector [] => mk_nparray Float64 [0] []
    | _ => widest F v
    end.
Proof.
  intros Hvalid. destruct v as [l | l]; unfold np_array, widest, tolist.
  - destruct l as [| z l]; [reflexivity |].
    cbn [fits_int64 forallb] in Hvalid.
    apply andb_true_iff in Hvalid. destruct Hvalid as [Hz Hl].
    assert (Hd : result_dtype F (map PyInt (z :: l)) = Int64).
    { cbn [map result_dtype scalar_dtype]. rewrite Hz.
      apply fold_promote_int64. exact Hl. }
    rewrite Hd, length_map, map_map. f_equal.
  - assert (Hd : result_dtype F (map PyFloat l) = Float64).
    { destruct l as [| f l]; [reflexivity |].
      cbn [map result_dtype scalar_dtype]. apply fold_promote_float64. }
    rewrite Hd, length_map, map_map. f_equal.
Qed.

Lemma np_array_same_values (v : vector F) :
  fits_int64 F v = true ->
  same_values F (np_array F float_of_int (JArray (tolist F v))) v.
Proof.
  intros Hvalid. rewrite (np_array_tolist v Hvalid).
  destruct v as [[| z l] | l]; unfold same_values, widest, tolist;
    cbn [np_shape np_items np_dtype map length];
    repeat split; try reflexivity;
    try (rewrite length_map; reflexivity).
  intros H. congruence.
Qed.


End ProbeFacts.

(** ** The sample floats *)

Lemma digits_value_stops_at_point (a b : string) :
  forall acc, digits_value acc (a ++ String "." b) = None.
Proof.
  induction a as [| c a IH]; intros acc; simpl; [reflexivity |].
  destruct (digit_of c); [apply IH | reflexivity].
Qed.

(** A literal with a fraction is no JSON integer. *)
Lemma int_of_json_with_fraction (s t : string) :
  int_of_json (s ++ String "." t) = None.
Proof.
  assert (Hunsigned : forall d,
             match (d ++ String "." t)%string with
             | EmptyString => None
             | String c rest =>
                 if Ascii.eqb c "0" && negb (is_empty rest) then None
                 else digits_value 0 (d ++ String "." t)
             end = None).
  { intros d. destruct (d ++ String "." t)%string as [| c rest] eqn:E;
      [reflexivity |].
    destruct (Ascii.eqb c "0" && negb (is_empty rest)); [reflexivity |].
    rewrite <- E. apply digits_value_stops_at_point. }
  unfold int_of_json. destruct s as [| c s].
  - reflexivity.
  - change (String c s ++ String "." t)%string
      with (String c (s ++ String "." t)).
    cbv zeta beta iota.
    destruct (Ascii.eqb c "-").
    + rewrite (Hunsigned s). reflexivity.
    + exact (Hunsigned (String c s)).
Qed.

Lemma int_char_is_no_point (c : ascii) :
  is_digit c || Ascii.eqb c "-" = true -> negb (Ascii.eqb "." c) = true.
Proof.
  destruct c as [[] [] [] [] [] [] [] []]; intros H;
    try reflexivity; discriminate H.
Qed.

Lemma whole_of_literal_repr (z : Z) :
  whole_of_literal (str_of_int z ++ ".0") = Some z.
Proof.
  unfold whole_of_literal.
  destruct (str_of_int_chars z) as [Hc _].
  change (str_of_int z ++ ".0")%string
    with (str_of_int z ++ String "." "0")%string.
  rewrite split_at_app.
  - change (split_at (Ascii.eqb ".") "0") with ["0"%string].
    cbv beta iota.
    rewrite String.eqb_refl, int_of_json_str_of_int, String.eqb_refl.
    reflexivity.
  - eapply string_forall_impl; [| exact Hc]. exact int_char_is_no_point.
  - reflexivity.
Qed.

(** The sample floats are written and read back without loss. *)
Lemma sample_format_exact :
  float_format_exact sample_float sample_repr sample_of_literal.
Proof.
  intros f.
  destruct f as [| | | | z]; try (repeat split; reflexivity).
  cbn [sample_repr]. destruct (str_of_int_chars z) as [Hc He].
  split; [| split; [| split]].
  - rewrite string_forall_app. apply andb_true_iff. split; [| reflexivity].
    eapply string_forall_impl; [| exact Hc].
    exact int_char_is_literal_char.
  - destruct (str_of_int z); [discriminate | reflexivity].
  - apply (int_of_json_with_fraction (str_of_int z) "0").
  - unfold sample_of_literal. rewrite whole_of_literal_repr. reflexivity.
Qed.


(** * Further properties *)

(** ** The loader: files, flags and units *)

Section LoaderFlags.

Variable R : Type.
Variables (zero : R) (add mul div : R -> R -> R).

Local Abbreviation load_kilosort_data := (load_kilosort_data R zero add mul div).

(** X1.  The spike times of a returned bundle are those of the selected
    file, squeezed; with [convert_to_seconds] every one of them is divided
    by the sampling rate, without it they are returned as stored.  Nothing
    is added or dropped. *)
Theorem spike_times_unit_conversion (fd : folder R) (sample_rate : R)
        (convert_to_seconds use_master_clock include_pcs : bool) (p : Z)
        (b : kilosort_data R) :
  load_kilosort_data fd sample_rate convert_to_seconds use_master_clock
                     include_pcs p = Ok b ->
  exists st,
    selected_spike_times fd use_master_clock = Holds st
    /\ shape (spike_times b) = shape (np_squeeze st)
    /\ data (spike_times b)
       = (if convert_to_seconds
          then map (fun x => div x sample_rate) (data st)
          else data st)
    /\ length (data (spike_times b)) = length (data st).
Proof.
  intros Hload. apply load_kilosort_data_inv in Hload.
  destruct Hload as (st & sc & amp & t & w & cm & pc & u & ids & q
                     & Hst & _ & _ & _ & _ & _ & _ & _ & _ & ->).
  exists st. split; [exact Hst |].
  destruct convert_to_seconds; simpl; repeat split; try reflexivity.
  apply length_map.
Qed.

(** X2.  The spike-time file the flag does not select is never read: the
    loader gives the same outcome whatever that file holds. *)
Theorem unselected_spike_times_never_read (fd : folder R) (sample_rate : R)
        (convert_to_seconds include_pcs : bool) (p : Z)
        (other : entry (ndarray R)) :
  load_kilosort_data (with_spike_times fd other) sample_rate
                     convert_to_seconds true include_pcs p
  = load_kilosort_data fd sample_rate convert_to_seconds true include_pcs p
  /\ load_kilosort_data (with_spike_times_master_clock fd other) sample_rate
                        convert_to_seconds false include_pcs p
     = load_kilosort_data fd sample_rate convert_to_seconds false
                          include_pcs p.
Proof. split; reflexivity. Qed.

(** X3.  The loader raises the exception of the first file it cannot open,
    in the order spike times (primary or master clock, by the flag),
    cluster assignments, amplitudes, templates, unwhitening matrix, channel
    map and, when requested, the two principal-component files.  With the
    master-clock flag set and the master-clock file missing it raises, also
    when the primary file is there. *)
Theorem first_failing_load_is_raised (fd : folder R) (sample_rate : R)
        (convert_to_seconds use_master_clock include_pcs : bool) (p : Z)
        (e : exn) :
  first_error (load_attempts fd use_master_clock include_pcs) = Some e ->
  load_kilosort_data fd sample_rate convert_to_seconds use_master_clock
                     include_pcs p = Raise e.
Proof.
  unfold load_attempts, selected_spike_times, load_kilosort_data.
  destruct fd as [st mc sc amp t w cm pf pi tsv]. simpl.
  destruct use_master_clock;
    [destruct mc as [? | e0] | destruct st as [? | e0]]; simpl;
    try (intros [= <-]; reflexivity);
    (destruct sc as [? | e1]; simpl; [| intros [= <-]; reflexivity]);
    (destruct amp as [? | e2]; simpl; [| intros [= <-]; reflexivity]);
    (destruct t as [? | e3]; simpl; [| intros [= <-]; reflexivity]);
    (destruct w as [? | e4]; simpl; [| intros [= <-]; reflexivity]);
    (destruct cm as [? | e5]; simpl; [| intros [= <-]; reflexivity]);
    (destruct include_pcs; simpl; [| discriminate]);
    (destruct pf as [? | e6]; simpl; [| intros [= <-]; reflexivity]);
    (destruct pi as [? | e7]; simpl; [discriminate | intros [= <-]; reflexivity]).
Qed.

(** X4.  The principal-component arrays follow the flag: without
    [include_pcs] the bundle has none and the two files are never read;
    with it the bundle carries the two arrays the files hold. *)
Theorem pcs_follow_the_flag (fd : folder R) (sample_rate : R)
        (convert_to_seconds use_master_clock include_pcs : bool) (p : Z)
        (b : kilosort_data R) :
  load_kilosort_data fd sample_rate convert_to_seconds use_master_clock
                     include_pcs p = Ok b ->
  (include_pcs = false ->
   pcs b = None
   /\ forall features feature_ind,
       load_kilosort_data (with_pcs fd features feature_ind) sample_rate
                          convert_to_seconds use_master_clock false p
       = Ok b)
  /\ (include_pcs = true ->
      exists features feature_ind,
        pc_features_npy fd = Holds features
        /\ pc_feature_ind_npy fd = Holds feature_ind
        /\ pcs b = Some (features, feature_ind)).
Proof.
  intros Hload. split.
  - intros ->. split.
    + apply load_kilosort_data_inv in Hload.
      destruct Hload as (st & sc & amp & t & w & cm & pc & u & ids & q
                         & _ & _ & _ & _ & _ & _ & Hpc & _ & _ & ->).
      simpl in *. congruence.
    + intros features feature_ind. rewrite <- Hload. reflexivity.
  - intros ->. apply load_kilosort_data_inv in Hload.
    destruct Hload as (st & sc & amp & t & w & cm & pc & u & ids & q
                       & _ & _ & _ & _ & _ & _ & Hpc & _ & _ & ->).
    unfold loaded_pcs in Hpc.
    destruct (pc_features_npy fd) as [f |]; [| discriminate].
    destruct (pc_feature_ind_npy fd) as [i |]; [| discriminate].
    simpl in Hpc. injection Hpc as <-.
    exists f, i. repeat split.
Qed.

(** X5.  When the quality table is read, the cluster identifiers and the
    labels of the bundle are those of the table, in the order of the
    table; they are not compared with the cluster assignments. *)
Theorem quality_table_is_used_as_is (fd : folder R) (sample_rate : R)
        (convert_to_seconds use_master_clock include_pcs : bool) (p : Z)
        (b : kilosort_data R) (ids : list Z) (labels : list string) :
  read_cluster_group_tsv (cluster_group_tsv fd) = Ok (ids, labels) ->
  load_kilosort_data fd sample_rate convert_to_seconds use_master_clock
                     include_pcs p = Ok b ->
  cluster_ids b = ids /\ cluster_quality b = labels.
Proof.
  intros Hread Hload. apply load_kilosort_data_inv in Hload.
  destruct Hload as (st & sc & amp & t & w & cm & pc & u & ids' & q
                     & _ & _ & _ & _ & _ & _ & _ & _ & Hq & ->).
  unfold resolve_cluster_quality, try_except_OSError in Hq.
  rewrite Hread in Hq. injection Hq as <- <-. split; reflexivity.
Qed.

End LoaderFlags.

(** ** The reconstruction: shapes and broadcasting *)

Lemma tabulate2_no_column {A : Type} (r : nat) (f : nat -> nat -> A) :
  tabulate2 r 0 f = [].
Proof.
  unfold tabulate2. induction (seq 0 r) as [| i l IH]; simpl; assumption || reflexivity.
Qed.

Lemma tabulate3_no_row {A : Type} (n c : nat) (f : nat -> nat -> nat -> A) :
  tabulate3 n 0 c f = [].
Proof.
  unfold tabulate3. induction (seq 0 n) as [| i l IH]; simpl; assumption || reflexivity.
Qed.

(** A row-major buffer is the table of its own entries. *)
Lemma tabulate3_of_nth {A : Type} (d : A) (n t c : nat) (l : list A) :
  length l = n * (t * c) ->
  tabulate3 n t c (fun i j k => nth ((i * t + j) * c + k) l d) = l.
Proof.
  intros Hlen.
  apply (nth_ext _ _ d d); [rewrite length_tabulate3; lia |].
  intros idx Hidx. rewrite length_tabulate3 in Hidx.
  assert (Hc : c <> 0) by (intros ->; lia).
  assert (Ht : t <> 0) by (intros ->; lia).
  pose proof (Nat.div_mod_eq idx c) as E1.
  pose proof (Nat.mod_upper_bound idx c Hc) as B1.
  pose proof (Nat.div_mod_eq (idx / c) t) as E2.
  pose proof (Nat.mod_upper_bound (idx / c) t Ht) as B2.
  set (k := idx mod c) in *. set (q := idx / c) in *.
  set (j := q mod t) in *. set (i := q / t) in *.
  assert (Hq : q < n * t).
  { apply Nat.nle_gt. intros Hge.
    assert (n * t * c <= q * c) by (apply Nat.mul_le_mono_r; exact Hge).
    lia. }
  assert (Hi : i < n).
  { apply Nat.nle_gt. intros Hge.
    assert (n * t <= i * t) by (apply Nat.mul_le_mono_r; exact Hge).
    lia. }
  replace idx with ((i * t + j) * c + k) by lia.
  rewrite nth_tabulate3 by assumption. reflexivity.
Qed.

Section Reconstruction.

Variable R : Type.
Variables (zero : R) (add mul : R -> R -> R).

Local Abbreviation get2 := (get2 R zero).
Local Abbreviation get3 := (get3 R zero).
Local Abbreviation mk3 := (mk3 R).
Local Abbreviation slice2 := (slice2 R zero).
Local Abbreviation strip_padding := (strip_padding R zero).
Local Abbreviation dot_entry := (dot_entry R zero add mul).
Local Abbreviation matmul := (matmul R zero add mul).
Local Abbreviation np_dot := (np_dot R zero add mul).
Local Abbreviation setitem_slice := (setitem_slice R zero).
Local Abbreviation unwhiten_loop := (unwhiten_loop R zero add mul).
Local Abbreviation unwhiten := (unwhiten R zero add mul).
Local Abbreviation np_zeros := (np_zeros R zero).

(** The loop when the product has as many columns as the templates have
    channels, or a single one. *)
Lemma unwhiten_loop_broadcast (templates : tensor3 R) (w : matrix R) :
  rows R w = dim2 R templates ->
  cols R w = dim2 R templates \/ cols R w = 1 ->
  forall (k s : nat) (acc : tensor3 R),
    s + k <= dim0 R templates ->
    dim0 R acc = dim0 R templates ->
    dim1 R acc = dim1 R templates ->
    dim2 R acc = dim2 R templates ->
    exists u,
      unwhiten_loop (seq s k) templates w acc = Ok u
      /\ dim0 R u = dim0 R templates
      /\ dim1 R u = dim1 R templates
      /\ dim2 R u = dim2 R templates
      /\ forall i j c,
          i < dim0 R templates -> j < dim1 R templates ->
          c < dim2 R templates ->
          get3 u i j c
          = if (s <=? i) && (i <? s + k)
            then dot_entry (slice2 templates i) w j
                           (if cols R w =? 1 then 0 else c)
            else get3 acc i j c.
Proof.
  intros Hrows Hcols. induction k as [| k IH]; intros s acc Hs H0 H1 H2.
  - exists acc. simpl. repeat split; try assumption.
    intros i j c _ _ _.
    replace ((s <=? i) && (i <? s + 0)) with false; [reflexivity |].
    symmetry. apply andb_false_iff.
    destruct (s <=? i) eqn:E; [right | left; reflexivity].
    apply Nat.leb_le in E. apply Nat.ltb_ge. lia.
  - simpl. rewrite np_dot_aligned by (simpl; symmetry; exact Hrows).
    simpl. unfold setitem_slice.
    replace (s <? dim0 R acc) with true
      by (symmetry; apply Nat.ltb_lt; lia).
    simpl. unfold broadcastable.
    rewrite H1, H2, Nat.eqb_refl.
    assert (Hb : (cols R w =? dim2 R templates) || (cols R w =? 1) = true).
    { destruct Hcols as [-> | ->];
        [rewrite Nat.eqb_refl; reflexivity | apply orb_true_r]. }
    rewrite Hb. simpl.
    destruct (IH (S s)
                 (mk3 (dim0 R acc) (dim1 R templates) (dim2 R templates)
                      (fun i' j k0 =>
                         if i' =? s
                         then get2 (matmul (slice2 templates s) w)
                                   (if dim1 R templates =? 1 then 0 else j)
                                   (if cols R w =? 1 then 0 else k0)
                         else get3 acc i' j k0)))
      as (u & Hu & Hu0 & Hu1 & Hu2 & Hget);
      try (simpl; lia).
    exists u. rewrite Hu. repeat split; try assumption.
    intros i j c Hi Hj Hc. rewrite (Hget i j c Hi Hj Hc).
    rewrite get3_mk3 by lia.
    rewrite (broadcast_index _ j Hj).
    destruct (i =? s) eqn:Eis.
    + apply Nat.eqb_eq in Eis. subst i.
      replace (S s <=? s) with false by (symmetry; apply Nat.leb_gt; lia).
      rewrite Nat.leb_refl.
      replace (s <? s + S k) with true by (symmetry; apply Nat.ltb_lt; lia).
      simpl. unfold matmul. simpl.
      apply get2_mk2; [assumption |].
      destruct (cols R w =? 1) eqn:E1.
      * apply Nat.eqb_eq in E1. lia.
      * apply Nat.eqb_neq in E1. destruct Hcols as [-> | ?]; [exact Hc | lia].
    + apply Nat.eqb_neq in Eis.
      replace (s + S k) with (S s + k) by lia.
      replace (S s <=? i) with (s <=? i); [reflexivity |].
      destruct (s <=? i) eqn:E1; symmetry.
      * apply Nat.leb_le in E1. apply Nat.leb_le. lia.
      * apply Nat.leb_gt in E1. apply Nat.leb_gt. lia.
Qed.

(** X6.  The reconstruction raises [ValueError] exactly in two cases, both
    with at least one template: the matrix has not as many rows as the
    templates have channels, or it has neither that many columns nor a
    single one.  In every other case it returns. *)
Theorem unwhiten_raises_exactly_on_shape (templates : tensor3 R)
        (w : matrix R) :
  let bad :=
    (0 <? dim0 R templates)
    && (negb (rows R w =? dim2 R templates)
        || (negb (cols R w =? dim2 R templates) && negb (cols R w =? 1))) in
  (bad = true -> unwhiten templates w = Raise ValueError)
  /\ (bad = false -> exists u, unwhiten templates w = Ok u
                               /\ shape3 R u = shape3 R templates).
Proof.
  intros bad. subst bad. split.
  - intros H. apply andb_true_iff in H. destruct H as [Hn H].
    apply Nat.ltb_lt in Hn. apply orb_true_iff in H.
    destruct H as [H | H].
    + apply negb_true_iff, Nat.eqb_neq in H.
      apply unwhiten_not_aligned; assumption.
    + destruct (Nat.eq_dec (rows R w) (dim2 R templates)) as [Hr | Hr];
        [| apply unwhiten_not_aligned; assumption].
      unfold unwhiten. destruct (dim0 R templates) as [| n] eqn:E0; [lia |].
      simpl. rewrite np_dot_aligned by (simpl; symmetry; exact Hr).
      simpl. unfold setitem_slice. simpl. unfold broadcastable.
      rewrite Nat.eqb_refl. simpl.
      apply andb_true_iff in H. destruct H as [H1 H2].
      apply negb_true_iff in H1, H2. rewrite H1, H2, E0. reflexivity.
  - intros H. apply andb_false_iff in H.
    destruct H as [H | H].
    + apply Nat.ltb_ge in H.
      exists (np_zeros (shape3 R templates)).
      split; [apply unwhiten_no_template; lia | reflexivity].
    + apply orb_false_iff in H. destruct H as [Hr Hc].
      apply negb_false_iff, Nat.eqb_eq in Hr.
      assert (Hcols : cols R w = dim2 R templates \/ cols R w = 1).
      { destruct (cols R w =? dim2 R templates) eqn:E1;
          [left; apply Nat.eqb_eq; exact E1 |].
        destruct (cols R w =? 1) eqn:E2;
          [right; apply Nat.eqb_eq; exact E2 | discriminate]. }
      destruct (unwhiten_loop_broadcast templates w Hr Hcols
                  (dim0 R templates) 0 (np_zeros (shape3 R templates)))
        as (u & Hu & Hu0 & Hu1 & Hu2 & _); try (simpl; lia).
      exists u. split; [exact Hu |].
      unfold shape3. rewrite Hu0, Hu1, Hu2. reflexivity.
Qed.

(** X7.  An unwhitening matrix with the right number of rows and a single
    column is accepted: every channel of the reconstruction receives the
    one column of products. *)
Theorem single_column_is_broadcast (templates : tensor3 R) (w : matrix R) :
  rows R w = dim2 R templates ->
  cols R w = 1 ->
  exists u,
    unwhiten templates w = Ok u
    /\ shape3 R u = shape3 R templates
    /\ forall i j c,
        i < dim0 R templates -> j < dim1 R templates ->
        c < dim2 R templates ->
        get3 u i j c = dot_entry (slice2 templates i) w j 0.
Proof.
  intros Hr Hc.
  destruct (unwhiten_loop_broadcast templates w Hr (or_intror Hc)
              (dim0 R templates) 0 (np_zeros (shape3 R templates)))
    as (u & Hu & Hu0 & Hu1 & Hu2 & Hget); try (simpl; lia).
  exists u. split; [exact Hu |]. split.
  - unfold shape3. rewrite Hu0, Hu1, Hu2. reflexivity.
  - intros i j c Hi Hj Hcc. rewrite (Hget i j c Hi Hj Hcc).
    replace (i <? 0 + dim0 R templates) with true
      by (symmetry; apply Nat.ltb_lt; lia).
    rewrite Hc. reflexivity.
Qed.

End Reconstruction.

(** ** The padding strip at the ends of its range *)

Section PaddingEdges.

Variable R : Type.
Variable zero : R.

Local Abbreviation get3 := (get3 R zero).
Local Abbreviation mk3 := (mk3 R).
Local Abbreviation strip_padding := (strip_padding R zero).

(** X8.  A padding width of zero removes nothing: the stripped tensor is
    the raw tensor (its buffer holding one value for every index). *)
Theorem strip_padding_zero_width (templates : tensor3 R) :
  length (buf3 R templates)
  = dim0 R templates * (dim1 R templates * dim2 R templates) ->
  strip_padding templates 0 = templates.
Proof.
  destruct templates as [n t c buf]. simpl. intros Hlen.
  unfold strip_padding, mk3, get3. cbn [dim0 dim1 dim2 buf3].
  rewrite (slice_start_in_range 0 t) by lia.
  change (Z.to_nat 0) with 0. rewrite Nat.sub_0_r. f_equal.
  apply tabulate3_of_nth. exact Hlen.
Qed.

(** X9.  A padding width that reaches the time length leaves no sample:
    the stripped tensor has time length zero and an empty buffer, the
    template and channel axes being kept. *)
Theorem strip_padding_whole_length (templates : tensor3 R) (p : Z) :
  (Z.of_nat (dim1 R templates) <= p)%Z ->
  dim0 R (strip_padding templates p) = dim0 R templates
  /\ dim1 R (strip_padding templates p) = 0
  /\ dim2 R (strip_padding templates p) = dim2 R templates
  /\ buf3 R (strip_padding templates p) = [].
Proof.
  intros Hp. unfold strip_padding. simpl.
  assert (Hs : slice_start p (dim1 R templates) = dim1 R templates).
  { unfold slice_start. destruct (p <? 0)%Z eqn:E.
    - apply Z.ltb_lt in E. lia.
    - lia. }
  rewrite Hs, Nat.sub_diag. repeat split.
  apply tabulate3_no_row.
Qed.

(** X10.  A negative padding width counts from the end, as Python slices
    do: with [-T <= p < 0] the stripped tensor keeps the last [-p] samples
    of every template, and with [p <= -T] it keeps them all. *)
Theorem strip_padding_negative_width (templates : tensor3 R) (p : Z) :
  (p < 0)%Z ->
  let T := dim1 R templates in
  let kept := Nat.min T (Z.to_nat (- p)) in
  dim1 R (strip_padding templates p) = kept
  /\ forall i t c,
      i < dim0 R templates -> t < kept -> c < dim2 R templates ->
      get3 (strip_padding templates p) i t c
      = get3 templates i (T - kept + t) c.
Proof.
  intros Hp T kept.
  assert (Hs : slice_start p T = T - kept).
  { unfold slice_start. replace (p <? 0)%Z with true
      by (symmetry; apply Z.ltb_lt; exact Hp).
    subst kept. lia. }
  destruct (strip_padding_dims R zero templates p) as (_ & H1 & _).
  fold T in H1. rewrite Hs in H1.
  assert (Hk : T - (T - kept) = kept) by (subst kept; lia).
  split; [lia |].
  intros i t c Hi Ht Hc.
  rewrite get3_strip_padding; fold T; rewrite ?Hs; try assumption; try lia.
  reflexivity.
Qed.

End PaddingEdges.

(** ** Quality tables of any width *)

Lemma word_has_no_line_char (w : string) :
  string_forall word_char w = true ->
  string_forall (fun c => negb (Ascii.eqb "#" c) && negb (Ascii.eqb LF c)
                          && negb (Ascii.eqb c CR)) w = true.
Proof.
  apply string_forall_impl. intros c Hc.
  destruct (word_char_cases c Hc) as (_ & -> & -> & ->). reflexivity.
Qed.

Lemma tab_joined_has_no_line_char (ws : list string) :
  Forall (fun w => is_word w = true) ws ->
  string_forall (fun c => negb (Ascii.eqb "#" c) && negb (Ascii.eqb LF c)
                          && negb (Ascii.eqb c CR))
                (String.concat (String TAB EmptyString) ws) = true.
Proof.
  induction 1 as [| w ws Hw Hws IH]; [reflexivity |].
  destruct (is_word_inv w Hw) as [_ Hc].
  destruct ws as [| w' ws'].
  - simpl. apply word_has_no_line_char. exact Hc.
  - change (String.concat (String TAB EmptyString) (w :: w' :: ws'))
      with (w ++ String TAB (String.concat (String TAB EmptyString) (w' :: ws')))%string.
    rewrite string_forall_app. apply andb_true_iff. split.
    + apply word_has_no_line_char. exact Hc.
    + cbn [string_forall]. apply andb_true_iff. split; [reflexivity | exact IH].
Qed.

Lemma words_of_tab_joined (ws : list string) :
  Forall (fun w => is_word w = true) ws ->
  words (String.concat (String TAB EmptyString) ws) = ws.
Proof.
  induction 1 as [| w ws Hw Hws IH]; [reflexivity |].
  destruct (is_word_inv w Hw) as [He Hc].
  assert (Hns : string_forall (fun c => negb (is_space c)) w = true).
  { eapply string_forall_impl; [| exact Hc]. intros c Hcc.
    destruct (word_char_cases c Hcc) as (-> & _). reflexivity. }
  destruct ws as [| w' ws'].
  - simpl. unfold words. rewrite split_at_none by exact Hns.
    simpl. rewrite He. reflexivity.
  - change (String.concat (String TAB EmptyString) (w :: w' :: ws'))
      with (w ++ String TAB (String.concat (String TAB EmptyString) (w' :: ws')))%string.
    unfold words. rewrite split_at_app by (exact Hns || reflexivity).
    simpl filter. rewrite He. simpl negb. cbv iota.
    f_equal. exact IH.
Qed.

(** A line of words is read as the row of these words; a line without any
    word is skipped. *)
Lemma table_rows_tsv_line (ws : list string) (rest : string) :
  Forall (fun w => is_word w = true) ws ->
  table_rows (tsv_line ws ++ rest)
  = match ws with
    | [] => table_rows rest
    | _ :: _ => ws :: table_rows rest
    end.
Proof.
  intros Hws. pose proof (tab_joined_has_no_line_char ws Hws) as Hline.
  unfold table_rows, lines, tsv_line.
  rewrite append_assoc.
  change (String LF EmptyString ++ rest)%string with (String LF rest).
  rewrite universal_newlines_app_LF.
  2:{ eapply string_forall_impl; [| exact Hline]. intros c Hc.
      apply andb_true_iff in Hc. destruct Hc as [_ ->]. reflexivity. }
  rewrite split_at_app.
  2:{ eapply string_forall_impl; [| exact Hline]. intros c Hc.
      apply andb_true_iff in Hc. destruct Hc as [Hc _].
      apply andb_true_iff in Hc. destruct Hc as [_ ->]. reflexivity. }
  2:{ reflexivity. }
  simpl map. unfold strip_comment at 1.
  rewrite split_at_none.
  2:{ eapply string_forall_impl; [| exact Hline]. intros c Hc.
      apply andb_true_iff in Hc. destruct Hc as [Hc _].
      apply andb_true_iff in Hc. destruct Hc as [-> _]. reflexivity. }
  simpl hd. rewrite (words_of_tab_joined ws Hws).
  destruct ws; reflexivity.
Qed.

Lemma table_rows_tsv (rows : list (list string)) :
  Forall (fun r => r <> [] /\ Forall (fun w => is_word w = true) r) rows ->
  table_rows (String.concat EmptyString (map tsv_line rows)) = rows.
Proof.
  induction 1 as [| r rows [Hne Hr] _ IH]; [reflexivity |].
  cbn [map]. rewrite concat_cons, (table_rows_tsv_line r _ Hr), IH.
  destruct r; [congruence | reflexivity].
Qed.

Lemma nth_concat_uniform {A : Type} (c : nat) (d : A) (rows : list (list A)) :
  Forall (fun r => length r = c) rows ->
  forall i k, i < length rows -> k < c ->
  nth (i * c + k) (concat rows) d = nth k (nth i rows []) d.
Proof.
  induction 1 as [| r rows Hr _ IH]; intros i k Hi Hk; simpl in *; [lia |].
  destruct i as [| i].
  - simpl. apply app_nth1. lia.
  - rewrite app_nth2 by (simpl; lia).
    replace (S i * c + k - length r) with (i * c + k) by (simpl; lia).
    apply IH; lia.
Qed.

(** The table [genfromtxt] builds for lines that all have [c] words. *)
Lemma genfromtxt_uniform (c : nat) (first : list string)
      (rest : list (list string)) :
  Forall (fun r => r <> [] /\ Forall (fun w => is_word w = true) r)
         (first :: rest) ->
  Forall (fun r => length r = c) (first :: rest) ->
  genfromtxt (Holds (String.concat EmptyString
                       (map tsv_line (first :: rest))))
  = Ok (np_squeeze (mk_ndarray [S (length rest); c]
                               (concat (first :: rest)))).
Proof.
  intros Hwf Hc. unfold genfromtxt. rewrite (table_rows_tsv _ Hwf).
  cbv beta iota zeta.
  inversion Hc as [| ? ? Hfirst Hrest]; subst.
  replace (forallb (fun r => length r =? length first) (first :: rest))
    with true; [reflexivity |].
  symmetry. apply forallb_forall. intros r Hr.
  rewrite Forall_forall in Hc. rewrite (Hc r Hr). apply Nat.eqb_refl.
Qed.



(** X14.  An ASCII table with a single line (a header alone), or with a
    single column, has lost an axis when it is indexed: the reader raises
    [IndexError]. *)
Theorem single_line_or_column_raises (c : nat) (first : list string)
        (rest : list (list string)) :
  Forall (fun r => r <> [] /\ Forall (fun w => is_word w = true) r)
         (first :: rest) ->
  Forall (fun r => length r = c) (first :: rest) ->
  rest = [] \/ c = 1 ->
  read_cluster_group_tsv
    (Holds (String.concat EmptyString (map tsv_line (first :: rest))))
  = Raise IndexError.
Proof.
  intros Hwf Hc Hcase.
  unfold read_cluster_group_tsv.
  rewrite (genfromtxt_uniform c first rest Hwf Hc).
  unfold np_squeeze, rows_from_1_column. cbn [shape data bind filter].
  destruct Hcase as [-> | ->].
  - simpl. destruct (negb (c =? 1)); reflexivity.
  - simpl. destruct (negb (length rest =? 0)); reflexivity.
Qed.

(** ** Writing the quality table *)

Lemma label_loop_short (IDs quality : list Z) :
  forall idx cluster_index cluster_quality,
    idx <= length quality ->
    length quality < idx + length IDs ->
    label_loop idx IDs quality cluster_index cluster_quality
    = Raise IndexError.
Proof.
  induction IDs as [| ID IDs IH]; intros idx ci cq Hidx Hlen; simpl in *.
  - lia.
  - destruct (nth_error quality idx) as [q |] eqn:E; [| reflexivity].
    assert (idx < length quality) by (apply nth_error_Some; congruence).
    apply IH; lia.
Qed.

(** X15.  With fewer quality codes than identifiers the writer raises
    [IndexError] and writes nothing. *)
Theorem too_few_quality_codes_raise (IDs quality : list Z) :
  length quality < length IDs ->
  write_cluster_group_tsv IDs quality = Raise IndexError.
Proof.
  intros Hlen. unfold write_cluster_group_tsv.
  rewrite label_loop_short by (simpl; lia). reflexivity.
Qed.

(** X16.  The quality codes beyond the last identifier are ignored: the
    file written is the same with or without them. *)
Theorem surplus_quality_codes_ignored (IDs quality surplus : list Z) :
  length IDs <= length quality ->
  write_cluster_group_tsv IDs (quality ++ surplus)
  = write_cluster_group_tsv IDs quality.
Proof.
  intros Hlen. unfold write_cluster_group_tsv.
  rewrite !label_loop_spec by (rewrite ?length_app; simpl; lia).
  simpl skipn. rewrite firstn_app.
  replace (length IDs - length quality) with 0 by lia.
  simpl firstn. rewrite List.app_nil_r. reflexivity.
Qed.

(** X17.  For an empty list of identifiers the writer produces the header
    line alone, and the reader raises [IndexError] on that file: an empty
    table does not survive the round trip. *)
Theorem empty_table_is_not_read_back (quality : list Z) :
  write_cluster_group_tsv [] quality
  = Ok ("cluster_id" ++ String TAB "group" ++ String LF EmptyString)%string
  /\ read_cluster_group_tsv
       (Holds ("cluster_id" ++ String TAB "group"
               ++ String LF EmptyString)%string)
     = Raise IndexError.
Proof. split; reflexivity. Qed.

(** X18.  Every label the writer gives, once read back, is one of
    "unsorted", "good" and "noise", and a cluster is "unsorted" or "good"
    only for the codes 0 and 1. *)
Theorem labels_read_back_are_three (IDs quality : list Z) (text : string)
        (ids : list Z) (labels : list string) :
  IDs <> [] ->
  length IDs <= length quality ->
  write_cluster_group_tsv IDs quality = Ok text ->
  read_cluster_group_tsv (Holds text) = Ok (ids, labels) ->
  ids = IDs
  /\ length labels = length IDs
  /\ forall i label,
      nth_error labels i = Some label ->
      exists q,
        nth_error quality i = Some q
        /\ (label = "unsorted" /\ q = 0%Z
            \/ label = "good" /\ q = 1%Z
            \/ label = "noise" /\ q <> 0%Z /\ q <> 1%Z).
Proof.
  intros Hne Hlen Hwrite Hread.
  destruct (read_written_table IDs quality Hne Hlen) as (text' & Hw & Hr).
  rewrite Hwrite in Hw. injection Hw as <-.
  rewrite Hread in Hr.
  destruct (forallb in_int64 IDs); [| discriminate].
  injection Hr as -> ->.
  split; [reflexivity |]. split.
  - rewrite length_map, length_firstn. lia.
  - intros i label Hi.
    rewrite nth_error_map in Hi.
    destruct (nth_error (firstn (length IDs) quality) i) as [q |] eqn:Eq;
      [| discriminate].
    simpl in Hi. injection Hi as <-.
    exists q. split.
    + rewrite nth_error_firstn in Eq.
      destruct (i <? length IDs); [exact Eq | discriminate].
    + unfold quality_label.
      destruct (Z.eqb_spec q 0) as [-> | H0]; [left; split; reflexivity |].
      destruct (Z.eqb_spec q 1) as [-> | H1];
        [right; left; split; reflexivity |].
      right; right. repeat split; assumption.
Qed.

(** X19.  Writing a quality table into a directory and loading the
    directory compose: the bundle carries the identifiers that were
    written, in order, each with the label of its code. *)
Theorem written_table_is_loaded (R : Type) (zero : R)
        (add mul div : R -> R -> R) (fd : folder R) (sample_rate : R)
        (convert_to_seconds use_master_clock include_pcs : bool) (p : Z)
        (IDs quality : list Z) (text : string) (b : kilosort_data R) :
  IDs <> [] ->
  length IDs <= length quality ->
  write_cluster_group_tsv IDs quality = Ok text ->
  load_kilosort_data R zero add mul div
                     (with_cluster_group_tsv fd (Holds text)) sample_rate
                     convert_to_seconds use_master_clock include_pcs p
  = Ok b ->
  cluster_ids b = IDs
  /\ cluster_quality b = map quality_label (firstn (length IDs) quality).
Proof.
  intros Hne Hlen Hwrite Hload.
  destruct (read_written_table IDs quality Hne Hlen) as (text' & Hw & Hr).
  rewrite Hwrite in Hw. injection Hw as <-.
  apply load_kilosort_data_inv in Hload.
  destruct Hload as (st & sc & amp & t & w & cm & pc & u & ids' & q
                     & _ & _ & _ & _ & _ & _ & _ & _ & Hq & ->).
  simpl in Hq. unfold resolve_cluster_quality, try_except_OSError in Hq.
  rewrite Hr in Hq.
  destruct (forallb in_int64 IDs); [| discriminate].
  injection Hq as <- <-. split; reflexivity.
Qed.

(** ** The probe document: the keys the reader needs *)

Lemma dict_get_fold {V : Type} (key : string) (data : list (string * V)) :
  forall acc : result V,
    (has_key data key = false ->
     fold_left (fun found kv =>
                  if String.eqb (fst kv) key then Ok (snd kv) else found)
               data acc = acc)
    /\ (has_key data key = true ->
        exists v,
          fold_left (fun found kv =>
                       if String.eqb (fst kv) key then Ok (snd kv) else found)
                    data acc = Ok v
          /\ In (key, v) data).
Proof.
  induction data as [| [k v] data IH]; intros acc; simpl.
  - split; [reflexivity | discriminate].
  - destruct (String.eqb_spec k key) as [-> | Hk]; simpl.
    + split; [discriminate |]. intros _.
      destruct (has_key data key) eqn:E.
      * destruct (proj2 (IH (Ok v)) eq_refl) as (v' & Hv' & Hin).
        exists v'. split; [exact Hv' | right; exact Hin].
      * exists v. split; [apply (proj1 (IH (Ok v)) eq_refl) | left; reflexivity].
    + split.
      * intros H. apply (proj1 (IH acc) H).
      * intros H. destruct (proj2 (IH acc) H) as (v' & Hv' & Hin).
        exists v'. split; [exact Hv' | right; exact Hin].
Qed.

Section ProbeKeys.

Variable F : Type.
Variable float_repr : F -> string.
Variable float_of_literal : string -> option F.
Variable float_of_int : Z -> F.
Hypothesis Hexact : float_format_exact F float_repr float_of_literal.

Local Abbreviation dict_get := (dict_get F).
Local Abbreviation json_dump := (json_dump F float_repr).
Local Abbreviation read_probe_json :=
  (read_probe_json F float_of_literal float_of_int).
Local Abbreviation np_array := (np_array F float_of_int).

Lemma dict_get_missing (data : document F) (key : string) :
  has_key data key = false -> dict_get data key = Raise KeyError.
Proof. intros H. apply (proj1 (dict_get_fold key data (Raise KeyError)) H). Qed.

Lemma dict_get_bound (data : document F) (key : string) :
  has_key data key = true ->
  exists v, dict_get data key = Ok v /\ In (key, v) data.
Proof. intros H. apply (proj2 (dict_get_fold key data (Raise KeyError)) H). Qed.



End ProbeKeys.

(** ** Searching a range *)

Lemma np_where_from_spec (cond : list bool) :
  forall start,
    StronglySorted Nat.lt (np_where_from start cond)
    /\ forall i, In i (np_where_from start cond)
                 <-> start <= i /\ nth_error cond (i - start) = Some true.
Proof.
  induction cond as [| c rest IH]; intros start.
  - split; [constructor |]. intros i. simpl. split; [tauto |].
    intros [_ H]. destruct (i - start); discriminate.
  - destruct (IH (S start)) as [Hsorted Hmem].
    assert (Hhere : forall i,
               start <= i /\ nth_error (c :: rest) (i - start) = Some true
               <-> (i = start /\ c = true)
                   \/ (S start <= i
                       /\ nth_error rest (i - S start) = Some true)).
    { intros i. split.
      - intros [Hle Hnth].
        destruct (Nat.eq_dec i start) as [-> | Hne].
        + left. rewrite Nat.sub_diag in Hnth. simpl in Hnth.
          split; congruence.
        + right. split; [lia |].
          replace (i - start) with (S (i - S start)) in Hnth by lia.
          exact Hnth.
      - intros [[-> ->] | [Hle Hnth]].
        + split; [lia |]. rewrite Nat.sub_diag. reflexivity.
        + split; [lia |].
          replace (i - start) with (S (i - S start)) by lia. exact Hnth. }
    split.
    + simpl. destruct c; [| exact Hsorted].
      constructor; [exact Hsorted |].
      apply Forall_forall. intros i Hi. apply Hmem in Hi. unfold Nat.lt. lia.
    + intros i. rewrite Hhere. simpl. destruct c; simpl.
      * rewrite Hmem. split.
        -- intros [<- | H]; [left; split; reflexivity | right; exact H].
        -- intros [[-> _] | H]; [left; reflexivity | right; exact H].
      * rewrite Hmem. split.
        -- intros H. right. exact H.
        -- intros [[_ H] | H]; [discriminate | exact H].
Qed.

Lemma nth_error_pointwise {A : Type} (op : bool -> bool -> bool)
      (f g : A -> bool) (x : list A) :
  forall i,
    nth_error (map (fun pq => op (fst pq) (snd pq))
                   (combine (map f x) (map g x))) i
    = option_map (fun v => op (f v) (g v)) (nth_error x i).
Proof.
  induction x as [| v x IH]; intros [| i]; simpl; try reflexivity.
  apply IH.
Qed.

Lemma np_where_from_complement {A : Type} (f g f' g' : A -> bool)
      (x : list A) :
  (forall v, f' v || g' v = negb (f v && g v)) ->
  forall start,
    length (np_where_from
              start (map (fun pq => fst pq && snd pq)
                         (combine (map f x) (map g x))))
    + length (np_where_from
                start (map (fun pq => fst pq || snd pq)
                           (combine (map f' x) (map g' x))))
    = length x.
Proof.
  intros Hcompl. induction x as [| v x IH]; intros start; simpl.
  - reflexivity.
  - rewrite Hcompl. destruct (f v && g v); simpl.
    + rewrite IH. reflexivity.
    + rewrite Nat.add_succ_r, IH. reflexivity.
Qed.

Section FindRangeFacts.

Variable R : Type.
Variables ge le lt gt : R -> R -> bool.

Local Abbreviation find_range := (find_range R ge le lt gt).

(** X23.  On one-dimensional data both options return: [within] gives
    exactly the positions whose value is [>= a] and [<= b], [outside]
    exactly those whose value is [< a] or [> b], each position once and
    in increasing order. *)
Theorem find_range_positions (x : list R) (a b : R) :
  exists inside outside,
    find_range x a b "within" = Ok inside
    /\ find_range x a b "outside" = Ok outside
    /\ StronglySorted Nat.lt inside
    /\ StronglySorted Nat.lt outside
    /\ (forall i, In i inside
                  <-> exists v, nth_error x i = Some v
                                /\ ge v a = true /\ le v b = true)
    /\ (forall i, In i outside
                  <-> exists v, nth_error x i = Some v
                                /\ (lt v a = true \/ gt v b = true)).
Proof.
  eexists. eexists.
  split; [reflexivity |]. split; [reflexivity |].
  unfold np_where, np_logical_and, np_logical_or.
  split; [apply np_where_from_spec |].
  split; [apply np_where_from_spec |].
  split; intros i.
  - rewrite (proj2 (np_where_from_spec _ 0) i), Nat.sub_0_r.
    rewrite (nth_error_pointwise andb). split.
    + intros [_ H]. destruct (nth_error x i) as [v |]; [| discriminate].
      exists v. simpl in H. injection H as H.
      apply andb_true_iff in H. tauto.
    + intros (v & -> & Hge & Hle). split; [lia |]. simpl.
      rewrite Hge, Hle. reflexivity.
  - rewrite (proj2 (np_where_from_spec _ 0) i), Nat.sub_0_r.
    rewrite (nth_error_pointwise orb). split.
    + intros [_ H]. destruct (nth_error x i) as [v |]; [| discriminate].
      exists v. simpl in H. injection H as H.
      apply orb_true_iff in H. tauto.
    + intros (v & -> & H). split; [lia |]. simpl.
      apply orb_true_iff in H. rewrite H. reflexivity.
Qed.

(** X24.  When [<] is the negation of [>=] and [>] the negation of [<=],
    as for integers and for floats other than NaN, the two options split
    the positions of the data: each position is in exactly one of the
    two results, and the two sizes add up to the size of the data. *)
Theorem find_range_options_partition (x : list R) (a b : R)
        (inside outside : list nat) :
  (forall u v, lt u v = negb (ge u v)) ->
  (forall u v, gt u v = negb (le u v)) ->
  find_range x a b "within" = Ok inside ->
  find_range x a b "outside" = Ok outside ->
  length inside + length outside = length x
  /\ forall i, i < length x -> (In i inside <-> ~ In i outside).
Proof.
  intros Hlt Hgt Hin Hout.
  injection Hin as <-. injection Hout as <-.
  unfold np_where, np_logical_and, np_logical_or. split.
  - apply np_where_from_complement. intros v.
    rewrite Hlt, Hgt, negb_andb. reflexivity.
  - intros i Hi.
    rewrite (proj2 (np_where_from_spec _ 0) i),
            (proj2 (np_where_from_spec _ 0) i), Nat.sub_0_r.
    rewrite (nth_error_pointwise andb), (nth_error_pointwise orb).
    destruct (nth_error x i) as [v |] eqn:E.
    + simpl. rewrite Hlt, Hgt, <- negb_andb.
      destruct (ge v a && le v b); simpl; split.
      * intros _ [_ H]. discriminate.
      * intros _. split; [lia | reflexivity].
      * intros [_ H]. discriminate.
      * intros H. exfalso. apply H. split; [lia | reflexivity].
    + apply nth_error_None in E. lia.
Qed.

(** X25.  The call raises [ValueError] exactly when the option is
    neither [within] nor [outside]; the data play no part in it. *)
Theorem find_range_unrecognized_option (x : list R) (a b : R)
        (option : string) :
  find_range x a b option = Raise ValueError
  <-> option <> "within"%string /\ option <> "outside"%string.
Proof.
  unfold find_range.
  destruct (String.eqb_spec option "within") as [-> | Hw].
  - split; [discriminate | intros [H _]; contradiction].
  - destruct (String.eqb_spec option "outside") as [-> | Ho].
    + split; [discriminate | intros [_ H]; contradiction].
    + split; [intros _; split; assumption | reflexivity].
Qed.

End FindRangeFacts.

(** ** The progress bar *)

Lemma str_mul_single (f : N) (n : Z) :
  str_mul [f] n = repeat f (Z.to_nat n).
Proof.
  unfold str_mul. induction (Z.to_nat n) as [| k IH]; simpl.
  - reflexivity.
  - rewrite IH. reflexivity.
Qed.

Lemma filledLength_bounds (iteration total len : Z) :
  (0 < total)%Z -> (0 <= iteration <= total)%Z -> (0 <= len)%Z ->
  (0 <= filledLength iteration total len <= len)%Z.
Proof.
  intros Ht Hi Hl. unfold filledLength. split.
  - apply Z.div_pos; [nia | exact Ht].
  - apply Z.div_le_upper_bound; [exact Ht | nia].
Qed.

(** X26.  For a positive total, an iteration between zero and the total
    and a one-character fill, the bar has exactly [length] cells: the
    filled ones, [length * iteration // total] of them, then the light
    ones. *)
Theorem bar_has_length_cells (iteration total len : Z) (f : N) :
  (0 < total)%Z -> (0 <= iteration <= total)%Z -> (0 <= len)%Z ->
  let k := Z.to_nat (filledLength iteration total len) in
  k <= Z.to_nat len
  /\ bar iteration total len [f]
     = (repeat f k ++ repeat LIGHT_SHADE (Z.to_nat len - k))%list
  /\ length (bar iteration total len [f]) = Z.to_nat len.
Proof.
  intros Ht Hi Hl k.
  pose proof (filledLength_bounds iteration total len Ht Hi Hl) as Hb.
  assert (Hk : k <= Z.to_nat len) by (subst k; lia).
  assert (Hbar : bar iteration total len [f]
                 = (repeat f k ++ repeat LIGHT_SHADE (Z.to_nat len - k))%list).
  { unfold bar. rewrite !str_mul_single. subst k.
    rewrite Z2Nat.inj_sub by lia. reflexivity. }
  split; [exact Hk |]. split; [exact Hbar |].
  rewrite Hbar, length_app, !repeat_length. lia.
Qed.

(** X27.  The bar is all light cells at iteration zero and all fill at
    the last iteration, for any total other than zero. *)
Theorem bar_at_both_ends (total len : Z) (f : N) :
  total <> 0%Z ->
  bar 0 total len [f] = repeat LIGHT_SHADE (Z.to_nat len)
  /\ bar total total len [f] = repeat f (Z.to_nat len).
Proof.
  intros Ht. unfold bar, filledLength. rewrite !str_mul_single. split.
  - rewrite Z.mul_0_r, Z.div_0_l by exact Ht.
    rewrite Z.sub_0_r. reflexivity.
  - rewrite Z.div_mul by exact Ht. rewrite Z.sub_diag.
    simpl. apply List.app_nil_r.
Qed.

(** X28.  The filled part never shrinks as the iteration grows. *)
Theorem filled_part_grows (iteration iteration' total len : Z) :
  (0 < total)%Z -> (0 <= len)%Z -> (iteration <= iteration')%Z ->
  (filledLength iteration total len <= filledLength iteration' total len)%Z.
Proof.
  intros Ht Hl Hi. unfold filledLength.
  apply Z.div_le_mono; [exact Ht | nia].
Qed.

(** X29.  Past the total the bar is not clipped: with a bar at least as
    long as the total, an iteration beyond the total gives more than
    [length] cells, all of them filled. *)
Theorem bar_overflows_past_total (iteration total len : Z) (f : N) :
  (0 < total)%Z -> (total <= len)%Z -> (total < iteration)%Z ->
  bar iteration total len [f]
  = repeat f (Z.to_nat (filledLength iteration total len))
  /\ Z.to_nat len < length (bar iteration total len [f]).
Proof.
  intros Ht Hl Hi.
  assert (Hfl : (len < filledLength iteration total len)%Z).
  { unfold filledLength.
    assert (len + 1 <= len * iteration / total)%Z; [| lia].
    apply Z.div_le_lower_bound; [exact Ht | nia]. }
  assert (Hbar : bar iteration total len [f]
                 = repeat f (Z.to_nat (filledLength iteration total len))).
  { unfold bar. rewrite !str_mul_single.
    replace (Z.to_nat (len - filledLength iteration total len)) with 0 by lia.
    simpl. apply List.app_nil_r. }
  split; [exact Hbar |].
  rewrite Hbar, repeat_length. lia.
Qed.

Section ProgressBarFacts.

Variable format_percent : Z -> Z -> Z -> option ustring.

Local Abbreviation printProgressBar := (printProgressBar format_percent).


End ProgressBarFacts.

(** * Examples for the further properties *)

(** X1, example: the example directory, read at 30 samples per unit. *)
Lemma spike_times_unit_conversion_example :
  exists b,
    load_example example_folder 1 = Ok b
    /\ exists st,
        selected_spike_times example_folder false = Holds st
        /\ shape (spike_times b) = shape (np_squeeze st)
        /\ data (spike_times b) = map (fun x => Z.div x 30) (data st)
        /\ length (data (spike_times b)) = length (data st).
Proof.
  eexists. split; [vm_compute; reflexivity |].
  apply (spike_times_unit_conversion Z 0%Z Z.add Z.mul Z.div example_folder
           30%Z true false false 1).
  vm_compute. reflexivity.
Defined.

(** X3, example: the example directory has no master-clock file; with the
    master-clock flag the loader raises, the primary file being there. *)
Lemma first_failing_load_is_raised_example :
  load_kilosort_data Z 0%Z Z.add Z.mul Z.div example_folder 30%Z
                     true true false 1
  = Raise FileNotFoundError.
Proof.
  apply (first_failing_load_is_raised Z 0%Z Z.add Z.mul Z.div example_folder
           30%Z true true false 1 FileNotFoundError).
  reflexivity.
Defined.

(** X4, example: the example directory with two principal-component
    arrays, loaded with [include_pcs]. *)
Lemma pcs_follow_the_flag_example :
  let features := mk_ndarray [3; 1; 1] [7; 8; 9]%Z in
  let feature_ind := mk_ndarray [2; 1] [0; 1]%Z in
  let fd := with_pcs example_folder (Holds features) (Holds feature_ind) in
  exists b,
    load_kilosort_data Z 0%Z Z.add Z.mul Z.div fd 30%Z true false true 1
    = Ok b
    /\ exists f i,
        pc_features_npy fd = Holds f
        /\ pc_feature_ind_npy fd = Holds i
        /\ pcs b = Some (f, i).
Proof.
  intros features feature_ind fd.
  eexists. split; [vm_compute; reflexivity |].
  apply (pcs_follow_the_flag Z 0%Z Z.add Z.mul Z.div fd 30%Z
           true false true 1).
  - vm_compute. reflexivity.
  - reflexivity.
Defined.

(** X5, example: a quality table naming the clusters 7 and 2 beside
    cluster assignments 5, 2, 5. *)
Lemma quality_table_is_used_as_is_example :
  let table := (csv_line "cluster_id" "group" ++ csv_line "7" "good"
                ++ csv_line "2" "noise")%string in
  let fd := with_cluster_group_tsv example_folder (Holds table) in
  exists b,
    load_example fd 1 = Ok b
    /\ cluster_ids b = [7; 2]%Z
    /\ cluster_quality b = ["good"; "noise"]%string.
Proof.
  intros table fd.
  eexists. split; [vm_compute; reflexivity |].
  apply (quality_table_is_used_as_is Z 0%Z Z.add Z.mul Z.div fd 30%Z
           true false false 1).
  - vm_compute. reflexivity.
  - vm_compute. reflexivity.
Defined.

(** X6, example: one template on three channels and a two-by-two
    matrix. *)
Lemma unwhiten_raises_exactly_on_shape_example :
  unwhiten Z 0%Z Z.add Z.mul (mk_tensor3 Z 1 2 3 [1; 2; 3; 4; 5; 6]%Z)
           (mk_matrix Z 2 2 [1; 1; 0; 2]%Z)
  = Raise ValueError.
Proof.
  apply (proj1 (unwhiten_raises_exactly_on_shape
                  Z 0%Z Z.add Z.mul
                  (mk_tensor3 Z 1 2 3 [1; 2; 3; 4; 5; 6]%Z)
                  (mk_matrix Z 2 2 [1; 1; 0; 2]%Z))).
  reflexivity.
Defined.

(** X7, example: one template on two channels and a two-by-one matrix. *)
Lemma single_column_is_broadcast_example :
  let templates := mk_tensor3 Z 1 2 2 [1; 2; 3; 4]%Z in
  let w := mk_matrix Z 2 1 [10; 100]%Z in
  exists u,
    unwhiten Z 0%Z Z.add Z.mul templates w = Ok u
    /\ shape3 Z u = shape3 Z templates
    /\ forall i j c,
        i < 1 -> j < 2 -> c < 2 ->
        get3 Z 0%Z u i j c
        = dot_entry Z 0%Z Z.add Z.mul (slice2 Z 0%Z templates i) w j 0.
Proof.
  intros templates w.
  apply (single_column_is_broadcast Z 0%Z Z.add Z.mul templates w);
    reflexivity.
Defined.

(** X8, example: the example templates. *)
Lemma strip_padding_zero_width_example :
  let templates :=
    mk_tensor3 Z 2 3 2 [0; 0; 1; 2; 3; 4; 0; 0; 5; 6; 7; 8]%Z in
  strip_padding Z 0%Z templates 0 = templates.
Proof.
  intros templates.
  apply (strip_padding_zero_width Z 0%Z templates).
  reflexivity.
Defined.

(** X9, example: three samples and a padding width of five. *)
Lemma strip_padding_whole_length_example :
  let templates :=
    mk_tensor3 Z 2 3 2 [0; 0; 1; 2; 3; 4; 0; 0; 5; 6; 7; 8]%Z in
  dim0 Z (strip_padding Z 0%Z templates 5) = 2
  /\ dim1 Z (strip_padding Z 0%Z templates 5) = 0
  /\ dim2 Z (strip_padding Z 0%Z templates 5) = 2
  /\ buf3 Z (strip_padding Z 0%Z templates 5) = [].
Proof.
  intros templates.
  apply (strip_padding_whole_length Z 0%Z templates 5).
  simpl. lia.
Defined.

(** X10, example: three samples and a padding width of minus one. *)
Lemma strip_padding_negative_width_example :
  let templates :=
    mk_tensor3 Z 2 3 2 [0; 0; 1; 2; 3; 4; 0; 0; 5; 6; 7; 8]%Z in
  dim1 Z (strip_padding Z 0%Z templates (-1)) = 1
  /\ forall i t c,
      i < 2 -> t < 1 -> c < 2 ->
      get3 Z 0%Z (strip_padding Z 0%Z templates (-1)) i t c
      = get3 Z 0%Z templates i (3 - 1 + t) c.
Proof.
  intros templates.
  apply (strip_padding_negative_width Z 0%Z templates (-1)).
  lia.
Defined.



(** X14, example: the header line alone. *)
Lemma single_line_or_column_raises_example :
  read_cluster_group_tsv
    (Holds (String.concat EmptyString
              (map tsv_line [["cluster_id"; "group"]]%string)))
  = Raise IndexError.
Proof.
  apply (single_line_or_column_raises 2 ["cluster_id"; "group"]%string []).
  - repeat constructor; discriminate.
  - repeat constructor.
  - left. reflexivity.
Defined.

(** X15, example: two identifiers and one code. *)
Lemma too_few_quality_codes_raise_example :
  write_cluster_group_tsv [1; 2]%Z [0]%Z = Raise IndexError.
Proof.
  apply (too_few_quality_codes_raise [1; 2]%Z [0]%Z).
  simpl. lia.
Defined.

(** X16, example: two identifiers and four codes. *)
Lemma surplus_quality_codes_ignored_example :
  write_cluster_group_tsv [1; 2]%Z ([0; 1]%Z ++ [2; 2]%Z)%list
  = write_cluster_group_tsv [1; 2]%Z [0; 1]%Z.
Proof.
  apply (surplus_quality_codes_ignored [1; 2]%Z [0; 1]%Z [2; 2]%Z).
  simpl. lia.
Defined.

(** X18, example: the codes 1, 0 and 7. *)
Lemma labels_read_back_are_three_example :
  exists text ids labels,
    write_cluster_group_tsv [3; 4; 8]%Z [1; 0; 7]%Z = Ok text
    /\ read_cluster_group_tsv (Holds text) = Ok (ids, labels)
    /\ ids = [3; 4; 8]%Z
    /\ length labels = 3
    /\ forall i label,
        nth_error labels i = Some label ->
        exists q,
          nth_error [1; 0; 7]%Z i = Some q
          /\ (label = "unsorted"%string /\ q = 0%Z
              \/ label = "good"%string /\ q = 1%Z
              \/ label = "noise"%string /\ q <> 0%Z /\ q <> 1%Z).
Proof.
  do 3 eexists.
  split; [vm_compute; reflexivity |].
  split; [vm_compute; reflexivity |].
  eapply (labels_read_back_are_three [3; 4; 8]%Z [1; 0; 7]%Z).
  - discriminate.
  - simpl. lia.
  - vm_compute. reflexivity.
  - vm_compute. reflexivity.
Defined.

(** X19, example: a table for the clusters 5 and 2 written into the
    example directory. *)
Lemma written_table_is_loaded_example :
  exists text b,
    write_cluster_group_tsv [5; 2]%Z [1; 0]%Z = Ok text
    /\ load_example (with_cluster_group_tsv example_folder (Holds text)) 1
       = Ok b
    /\ cluster_ids b = [5; 2]%Z
    /\ cluster_quality b = ["good"; "unsorted"]%string.
Proof.
  do 2 eexists.
  split; [vm_compute; reflexivity |].
  split; [vm_compute; reflexivity |].
  eapply (written_table_is_loaded Z 0%Z Z.add Z.mul Z.div example_folder 30%Z
           true false false 1 [5; 2]%Z [1; 0]%Z).
  - discriminate.
  - simpl. lia.
  - vm_compute. reflexivity.
  - vm_compute. reflexivity.
Defined.



(** X24, example: integers with their usual comparisons. *)
Lemma find_range_options_partition_example :
  let x := [4; 9; 1; 7; 12]%Z in
  exists inside outside,
    find_range Z Z.geb Z.leb Z.ltb Z.gtb x 4%Z 9%Z "within" = Ok inside
    /\ find_range Z Z.geb Z.leb Z.ltb Z.gtb x 4%Z 9%Z "outside" = Ok outside
    /\ length inside + length outside = length x
    /\ forall i, i < length x -> (In i inside <-> ~ In i outside).
Proof.
  intros x. do 2 eexists.
  split; [vm_compute; reflexivity |].
  split; [vm_compute; reflexivity |].
  apply (find_range_options_partition Z Z.geb Z.leb Z.ltb Z.gtb x 4%Z 9%Z).
  - intros u v. rewrite Z.geb_leb. apply Z.ltb_antisym.
  - intros u v. rewrite Z.gtb_ltb. apply Z.ltb_antisym.
  - vm_compute. reflexivity.
  - vm_compute. reflexivity.
Defined.

(** X26, example: the third of ten iterations on forty cells. *)
Lemma bar_has_length_cells_example :
  12 <= 40
  /\ bar 3 10 40 [MEDIUM_SHADE]
     = (repeat MEDIUM_SHADE 12 ++ repeat LIGHT_SHADE (40 - 12))%list
  /\ length (bar 3 10 40 [MEDIUM_SHADE]) = 40.
Proof.
  apply (bar_has_length_cells 3 10 40 MEDIUM_SHADE); lia.
Defined.

(** X27, example: ten iterations on forty cells. *)
Lemma bar_at_both_ends_example :
  bar 0 10 40 [MEDIUM_SHADE] = repeat LIGHT_SHADE 40
  /\ bar 10 10 40 [MEDIUM_SHADE] = repeat MEDIUM_SHADE 40.
Proof.
  apply (bar_at_both_ends 10 40 MEDIUM_SHADE).
  lia.
Defined.

(** X28, example: the third and the seventh of ten iterations. *)
Lemma filled_part_grows_example :
  (filledLength 3 10 40 <= filledLength 7 10 40)%Z.
Proof.
  apply (filled_part_grows 3 7 10 40); lia.
Defined.

(** X29, example: the twelfth of ten iterations on forty cells. *)
Lemma bar_overflows_past_total_example :
  bar 12 10 40 [MEDIUM_SHADE] = repeat MEDIUM_SHADE 48
  /\ 40 < length (bar 12 10 40 [MEDIUM_SHADE]).
Proof.
  apply (bar_overflows_past_total 12 10 40 MEDIUM_SHADE); lia.
Defined.
